(** * Climate Fairness Index pipeline: a shallow embedding of
      [climate_fairness_analysis.py] and the properties of its stages.

    Number model.  The script computes with float64.  Here a finite float
    is an exact rational ([Q], compared with [Qeq], as Python's [==] compares
    values): the definitions follow the operations of the script and of its
    libraries one by one, without their rounding; overflow and the
    infinities are outside the model.  A missing value (NaN) in a column is
    [None].  The theorems say which formula is computed and, of its values,
    what does not rest on exactness: their order, their sign, the exact
    zeros, counts, the columns assigned and the exceptions raised.  Where
    the exact formula says more than the float computation keeps (a maximum
    scaled to 1, distinct values kept distinct), the binary64 computation is
    given beside it ([minmax_column_b64]). *)

From Stdlib Require Import QArith Qminmax Lqa ZArith Floats.
From stdpp Require Import gmap strings list sorting.

Local Open Scope string_scope.
Local Open Scope list_scope.

(** ** Python values, exceptions *)

Inductive exn :=
| KeyError (name : string)
| TypeError
| ValueError (msg : string)
| NonFinite.
(* [NonFinite] is the boundary of the number model: the place where numpy
   would go on with NaN, inf or a division by zero. *)

Inductive result (A : Type) :=
| Ok (a : A)
| Raise (e : exn).
Arguments Ok {A} a.
Arguments Raise {A} e.

Inductive pyval :=
| PyNone
| PyBool (b : bool)
| PyInt (z : Z)
| PyFloat (q : Q)
| PyNaN
| PyStr (s : string).

(** Python's truth value. *)
Definition truthy (v : pyval) : bool :=
  match v with
  | PyNone => false
  | PyBool b => b
  | PyInt z => negb (z =? 0)%Z
  | PyFloat q => negb (Qeq_bool q 0)
  | PyNaN => true
  | PyStr s => negb (String.eqb s "")
  end.

(** [a or b] *)
Definition py_or (a b : pyval) : pyval := if truthy a then a else b.

(** ** The three input tables

    Each CSV has the columns country, year and one indicator. *)

Record obs := Obs {
  o_country : option string;
  o_year : option Z;
  o_value : option Q
}.

Definition table := list obs.

(** [t['year'].max()]: NaN entries are skipped, an empty column gives NaN. *)
Definition year_max (t : table) : option Z :=
  foldr (λ o acc, match o_year o, acc with
                  | Some y, Some m => Some (Z.max y m)
                  | Some y, None => Some y
                  | None, _ => acc
                  end) None t.

(** [<] on numbers that may be NaN: every comparison with NaN is false. *)
Definition nan_lt (a b : option Z) : bool :=
  match a, b with
  | Some x, Some y => (x <? y)%Z
  | _, _ => false
  end.

(** The builtin [min(a, b, c)]: keep the first, replace it by a later
    argument only when that one is smaller. *)
Definition py_min3 (a b c : option Z) : option Z :=
  let m := a in
  let m := if nan_lt b m then b else m in
  if nan_lt c m then c else m.

(** A year as a Python value.  The years of a table are whole numbers here;
    that pandas holds them as float64 when a cell of the column is missing
    (and as int64 otherwise) is not told apart. *)
Definition year_val (y : option Z) : pyval :=
  match y with Some z => PyInt z | None => PyNaN end.

(** One cell of [t['year'] == year]. *)
Definition year_eq (cell : option Z) (year : pyval) : bool :=
  match cell, year with
  | Some z, PyInt z' => (z =? z')%Z
  | Some z, PyBool b => (z =? (if b then 1 else 0))%Z
  | Some z, PyFloat q => Qeq_bool (inject_Z z) q
  | _, _ => false
  end.

(** [t[t['year'] == year][['country', <indicator>]]] *)
Definition select_year (t : table) (year : pyval)
  : list (option string * option Q) :=
  (λ o, (o_country o, o_value o)) <$> filter (λ o, year_eq (o_year o) year) t.

(** [left.merge(right, on='country')]: inner join, in the order of the left
    keys; null keys match each other, as in pandas. *)
Definition merge {A B : Type} (left : list (option string * A))
    (right : list (option string * B)) : list (option string * (A * B)) :=
  left ≫= λ l, (λ r, (l.1, (l.2, r.2))) <$> filter (λ r, r.1 = l.1) right.

Record merged_row := MergedRow {
  m_country : option string;
  m_co2 : option Q;
  m_poverty : option Q;
  m_revenue : option Q
}.

Definition complete (r : merged_row) : bool :=
  bool_decide (is_Some (m_country r)) && bool_decide (is_Some (m_co2 r))
  && bool_decide (is_Some (m_poverty r)) && bool_decide (is_Some (m_revenue r)).

(** [df.dropna()] *)
Definition dropna (rows : list merged_row) : list merged_row :=
  filter (λ r, complete r) rows.

(** ** Data frames *)

Inductive column :=
| ObjCol (l : list (option string))   (* object dtype *)
| FloatCol (l : list (option Q))      (* float64 *)
| IntCol (l : list Z).                (* int64 *)

Definition col_len (c : column) : nat :=
  match c with
  | ObjCol l => length l
  | FloatCol l => length l
  | IntCol l => length l
  end.

Record DataFrame := Frame {
  nrows : nat;
  cols : gmap string column
}.

Definition frame_of_rows (rows : list merged_row) : DataFrame :=
  {| nrows := length rows;
     cols := <["country" := ObjCol (m_country <$> rows)]>
             (<["co2_per_capita" := FloatCol (m_co2 <$> rows)]>
             (<["extreme_poverty_share" := FloatCol (m_poverty <$> rows)]>
             (<["revenue_gap_pct" := FloatCol (m_revenue <$> rows)]> ∅))) |}.

(** [load_and_merge(latest_year)], on the contents of the three files. *)
Definition max_common (co2 poverty revenue : table) : option Z :=
  py_min3 (year_max co2) (year_max poverty) (year_max revenue).

Definition merged_rows (co2 poverty revenue : table) (year : pyval)
  : list merged_row :=
  let co2_y := select_year co2 year in
  let pov_y := select_year poverty year in
  let rev_y := select_year revenue year in
  (λ r, MergedRow r.1 r.2.1.1 r.2.1.2 r.2.2) <$> merge (merge co2_y pov_y) rev_y.

Definition load_and_merge (co2 poverty revenue : table) (latest_year : pyval)
  : DataFrame * pyval :=
  let year := py_or latest_year (year_val (max_common co2 poverty revenue)) in
  let df := dropna (merged_rows co2 poverty revenue year) in
  (frame_of_rows df, year).

(** ** The data frame as a mutable object

    Every stage receives the frame, assigns columns to it in place and
    returns it.  A stage is a computation over the frame that may raise;
    the frame it leaves behind is part of the outcome also when it raises. *)

Definition M (A : Type) : Type := DataFrame → result A * DataFrame.

Global Instance M_ret : MRet M := λ A a df, (Ok a, df).
Global Instance M_bind : MBind M := λ A B f m df,
  match m df with
  | (Ok a, df') => f a df'
  | (Raise e, df') => (Raise e, df')
  end.

Definition raise {A : Type} (e : exn) : M A := λ df, (Raise e, df).

Definition lift {A : Type} (r : result A) : M A := λ df, (r, df).

(** The frame a stage leaves behind, and whether it returned. *)
Definition final {A : Type} (m : M A) (df : DataFrame) : DataFrame := (m df).2.
Definition outcome {A : Type} (m : M A) (df : DataFrame) : result A := (m df).1.

(** [df[name]] *)
Definition getitem (name : string) : M column := λ df,
  match cols df !! name with
  | Some c => (Ok c, df)
  | None => (Raise (KeyError name), df)
  end.

(** [df[name] = values]: the values must have one entry per row. *)
Definition setitem (name : string) (c : column) : M () := λ df,
  if decide (col_len c = nrows df)
  then (Ok (), {| nrows := nrows df; cols := <[name := c]> (cols df) |})
  else (Raise (ValueError "Length of values does not match length of index"), df).

(** The entries of a column when none is missing. *)
Definition all_present {A : Type} (l : list (option A)) : option (list A) :=
  mapM (M := option) id l.

(** The numbers of a column, for arithmetic; [bad] is what a column of
    strings raises.  A NaN entry leaves the number model. *)
Definition to_floats (bad : exn) (c : column) : result (list Q) :=
  match c with
  | FloatCol l =>
      match all_present l with
      | Some v => Ok v
      | None => Raise NonFinite
      end
  | IntCol l => Ok (inject_Z <$> l)
  | ObjCol _ => Raise bad
  end.

Definition get_floats (bad : exn) (name : string) : M (list Q) :=
  c ← getitem name; lift (to_floats bad c).

Definition float_col (l : list Q) : column := FloatCol (Some <$> l).

(** ** Numeric helpers *)

Local Open Scope Q_scope.

Definition Qlt_b (x y : Q) : bool := negb (Qle_bool y x).

Definition fmin (x y : Q) : Q := if Qle_bool x y then x else y.
Definition fmax (x y : Q) : Q := if Qle_bool x y then y else x.

Definition col_min (l : list Q) : Q :=
  match l with [] => 0 | x :: l' => foldl fmin x l' end.
Definition col_max (l : list Q) : Q :=
  match l with [] => 0 | x :: l' => foldl fmax x l' end.

Definition Qsum (l : list Q) : Q := foldr Qplus 0 l.

Definition of_nat (n : nat) : Q := inject_Z (Z.of_nat n).

Definition count (f : Q → bool) (l : list Q) : nat := length (filter (λ x, f x) l).

(** Division of two finite floats; [None] where the float result is not
    finite. *)
Definition float_div (a b : Q) : option Q :=
  if Qeq_bool b 0 then None else Some (a / b).

Section Pipeline.

(** What the libraries contribute and [Q] cannot compute:
    - [tiny]: the threshold under which scikit-learn's
      [_handle_zeros_in_scale] takes a scale for zero (0 in the releases
      that test [scale == 0.0], ten machine epsilons in the later ones,
      which also test a variance against its rounding error);
    - [sqrtQ]: the float square root;
    - [KMeans_fit_predict n_clusters random_state X]: the labels k-means
      gives the rows of [X], or the exception it raises. *)
Variable tiny : Q.
Variable sqrtQ : Q → Q.
Variable KMeans_fit_predict : nat → Z → list (Q * Q * Q) → result (list Z).

Definition handle_zeros_in_scale (scale : Q) : Q :=
  if Qlt_b scale tiny || Qeq_bool scale 0 then 1 else scale.

(** [MinMaxScaler().fit_transform] on one feature, feature_range (0, 1):
    [X * scale_ + min_], without the rounding of [minmax_column_b64]. *)
Definition minmax_column (l : list Q) : list Q :=
  let data_min := col_min l in
  let data_max := col_max l in
  let data_range := data_max - data_min in
  let scale_ := (1 - 0) / handle_zeros_in_scale data_range in
  let min_ := 0 - data_min * scale_ in
  (λ x, x * scale_ + min_) <$> l.

(** [_is_constant_feature(var, mean, n_samples)]: the variance is within
    the rounding error of its computation; the machine epsilon is a tenth
    of [tiny]. *)
Definition is_constant_feature (var_ mean_ n : Q) : bool :=
  let eps := tiny / 10 in
  Qle_bool var_ (n * eps * var_ + (n * mean_ * eps) * (n * mean_ * eps)).

(** [StandardScaler().fit_transform] on one feature: the scale is the root
    of the population variance, and 1 for a feature taken as constant
    ([_handle_zeros_in_scale] with the constant mask). *)
Definition standard_column (l : list Q) : list Q :=
  let n := of_nat (length l) in
  let mean_ := Qsum l / n in
  let var_ := Qsum ((λ x, (x - mean_) * (x - mean_)) <$> l) / n in
  let scale_ := if is_constant_feature var_ mean_ n then 1 else sqrtQ var_ in
  (λ x, (x - mean_) / scale_) <$> l.

(** Both scalers refuse a matrix without rows. *)
Definition fit_transform (scaler : list Q → list Q) (X : list (list Q))
  : M (list (list Q)) := λ df,
  if decide (nrows df = 0%nat)
  then (Raise (ValueError "Found array with 0 sample(s)"), df)
  else (Ok (scaler <$> X), df).

Definition raw3 (bad : exn) : M (list (list Q)) :=
  a ← get_floats bad "co2_per_capita";
  b ← get_floats bad "extreme_poverty_share";
  c ← get_floats bad "revenue_gap_pct";
  mret [a; b; c].

Definition set3 (n1 n2 n3 : string) (X : list (list Q)) : M () :=
  match X with
  | [a; b; c] =>
      setitem n1 (float_col a);; setitem n2 (float_col b);; setitem n3 (float_col c)
  | _ => raise (ValueError "Columns must be same length as key")
  end.

Definition normalize : M () :=
  X ← raw3 (ValueError "could not convert string to float");
  Xmm ← fit_transform minmax_column X;
  set3 "co2_mm" "poverty_mm" "revenue_mm" Xmm;;
  X ← raw3 (ValueError "could not convert string to float");
  Xz ← fit_transform standard_column X;
  set3 "co2_z" "poverty_z" "revenue_z" Xz.

(** ** The index *)

Definition epsilon : Q := 1 # 1000000.

(** [(p * r) / (c + epsilon)], row by row. *)
Fixpoint cfi_values (p r c : list Q) : list (option Q) :=
  match p, r, c with
  | x :: p', y :: r', z :: c' => float_div (x * y) (z + epsilon) :: cfi_values p' r' c'
  | _, _, _ => []
  end.

(** [Series.rank(ascending=False)], ties share the mean of their places:
    a value with [g] greater values and [e] equal ones (itself included)
    holds the places g+1 .. g+e. *)
Definition rank_desc (l : list Q) : list Q :=
  (λ v, of_nat (count (λ w, Qlt_b v w) l)
        + (of_nat (count (λ w, Qeq_bool w v) l) + 1) / 2) <$> l.

(** [Series.quantile(k/q)] on the sorted values, linear interpolation.  The
    interpolation is exact here; in float64 its rounding can bring an edge
    onto a neighbouring value. *)
Definition quantile (sorted : list Q) (k q : nat) : Q :=
  let n := length sorted in
  let pos := (k * (n - 1))%nat in
  let lo := (pos / q)%nat in
  let a := default 0 (sorted !! lo) in
  let b := default 0 (sorted !! ((lo + 1) `min` (n - 1))%nat) in
  a + (b - a) * (of_nat (pos mod q) / of_nat q).

Global Instance Qle_dec' : RelDecision Qle.
Proof. intros x y. destruct (Qlt_le_dec y x); [right; lra | left; assumption]. Defined.

(** The values a first-occurrence [unique] keeps. *)
Fixpoint unique (l : list Q) : list Q :=
  match l with
  | [] => []
  | x :: l' => x :: filter (λ y, negb (Qeq_bool y x)) (unique l')
  end.

(** [bins.searchsorted(x, side='left')] on increasing bins. *)
Fixpoint searchsorted_left (bins : list Q) (x : Q) : nat :=
  match bins with
  | [] => 0
  | b :: bs => if Qlt_b b x then S (searchsorted_left bs x) else 0
  end.

Definition qcut_bins (values : list Q) (q : nat) : list Q :=
  let sorted := merge_sort Qle values in
  (λ k, quantile sorted k q) <$> seq 0 (S q).

(** The label of one value: its interval, the first one closed on the left;
    NaN outside the bins. *)
Definition bin_label (bins : list Q) (x : Q) : option Z :=
  let ids := searchsorted_left bins x in
  let ids := if Qeq_bool x (default 0 (head bins)) then 1%nat else ids in
  if decide (ids = 0%nat ∨ ids = length bins) then None
  else Some (Z.of_nat ids - 1)%Z.

(** [pd.qcut(values, q, labels=False)], duplicates='raise'. *)
Definition qcut (values : list Q) (q : nat) : result (list (option Z)) :=
  let bins := qcut_bins values q in
  if decide ((length (unique bins) < length bins)%nat ∧ length bins ≠ 2%nat)
  then Raise (ValueError "Bin edges must be unique")
  else Ok (bin_label bins <$> values).

(** [labels + 1]: int64 when no label is missing, float64 with NaN
    otherwise. *)
Definition labels_plus_one (labels : list (option Z)) : column :=
  match all_present labels with
  | Some zs => IntCol ((λ z, z + 1)%Z <$> zs)
  | None => FloatCol ((λ o : option Z, (λ z, inject_Z z + 1) <$> o) <$> labels)
  end.

Definition compute_cfi : M () :=
  p ← get_floats TypeError "poverty_mm";
  r ← get_floats TypeError "revenue_mm";
  c ← get_floats TypeError "co2_mm";
  match all_present (cfi_values p r c) with
  | None => raise NonFinite
  | Some cfi =>
      setitem "CFI" (float_col cfi);;
      v ← get_floats TypeError "CFI";
      setitem "CFI_rank" (float_col (rank_desc v));;
      v ← get_floats TypeError "CFI";
      labels ← lift (qcut v 10);
      setitem "CFI_decile" (labels_plus_one labels)
  end.

(** ** Clustering *)

(** The rows of the three feature columns. *)
Fixpoint zip3 (a b c : list Q) : list (Q * Q * Q) :=
  match a, b, c with
  | x :: a', y :: b', z :: c' => (x, y, z) :: zip3 a' b' c'
  | _, _, _ => []
  end.

Definition names (cluster : Z) : option string :=
  match cluster with
  | 0%Z => Some "Justice Priorities"
  | 1%Z => Some "High-Responsibility"
  | 2%Z => Some "Transitional"
  | 3%Z => Some "Outliers"
  | _ => None
  end.

(** [df['cluster']], as [Series.map] needs it. *)
Definition get_ints (name : string) : M (list Z) :=
  c ← getitem name;
  match c with
  | IntCol l => mret l
  | _ => raise TypeError
  end.

Definition cluster_countries (n_clusters : nat) : M () :=
  a ← get_floats (ValueError "could not convert string to float") "co2_z";
  b ← get_floats (ValueError "could not convert string to float") "poverty_z";
  c ← get_floats (ValueError "could not convert string to float") "revenue_z";
  labels ← lift (KMeans_fit_predict n_clusters 42%Z (zip3 a b c));
  setitem "cluster" (IntCol labels);;
  cl ← get_ints "cluster";
  setitem "cluster_label" (ObjCol (names <$> cl)).

(** ** The marker map of [create_visualizations] *)

Inductive cell :=
| CStr (s : string)
| CNum (q : Q)
| CInt (z : Z)
| CNaN.

Definition cell_at (c : column) (i : nat) : option cell :=
  match c with
  | ObjCol l => from_option CStr CNaN <$> l !! i
  | FloatCol l => from_option CNum CNaN <$> l !! i
  | IntCol l => CInt <$> l !! i
  end.

(** [row.get(name)]: [None] when the frame has no such column. *)
Definition row_get (df : DataFrame) (i : nat) (name : string) : option cell :=
  c ← cols df !! name; cell_at c i.

(** [row[name]] *)
Definition row_item (df : DataFrame) (i : nat) (name : string) : result cell :=
  match row_get df i name with
  | Some v => Ok v
  | None => Raise (KeyError name)
  end.

(** [pd.notnull] *)
Definition notnull (v : option cell) : bool :=
  match v with
  | None | Some CNaN => false
  | Some _ => true
  end.

Record marker := Marker {
  location : cell * cell;
  fill_color : nat;             (* index into the ten-colour palette *)
  popup : cell * cell           (* country, cluster label *)
}.

(** One turn of the loop over [df.iterrows()]: the marker added for row
    [i], if any. *)
Definition row_marker (df : DataFrame) (i : nat) : result (option marker) :=
  let lat := row_get df i "latitude" in
  let lon := row_get df i "longitude" in
  if notnull lat && notnull lon then
    match lat, lon with
    | Some la, Some lo =>
        match row_item df i "cluster" with
        | Ok (CInt k) =>
            match row_item df i "country" with
            | Ok ctry =>
                match row_item df i "cluster_label" with
                | Ok lbl => Ok (Some (Marker (la, lo) (Z.to_nat (k mod 10)) (ctry, lbl)))
                | Raise e => Raise e
                end
            | Raise e => Raise e
            end
        | Ok _ => Raise TypeError
        | Raise e => Raise e
        end
    | _, _ => Ok None
    end
  else Ok None.

(** The markers on the saved map, in row order. *)
Fixpoint add_markers (df : DataFrame) (rows : list nat) (m : list marker)
  : result (list marker) :=
  match rows with
  | [] => Ok m
  | i :: rest =>
      match row_marker df i with
      | Ok (Some mk) => add_markers df rest (m ++ [mk])
      | Ok None => add_markers df rest m
      | Raise e => Raise e
      end
  end.

Definition marker_map : M (list marker) := λ df,
  (add_markers df (seq 0 (nrows df)) [], df).

(** The three stages as [main] calls them, one after the other, on the
    frame [load_and_merge] returned. *)
Definition annotate : M () :=
  normalize;; compute_cfi;; cluster_countries 4.

End Pipeline.

(** * Specification vocabulary *)

(** ** Loading and merging *)

(** The countries a table lists for [year], in order. *)
Definition countries_in_year (t : table) (year : pyval) : list (option string) :=
  o_country <$> filter (λ o, year_eq (o_year o) year) t.

(** The names among them, a row without a country left out. *)
Definition named_countries (t : table) (year : pyval) : list string :=
  omap id (countries_in_year t year).

(** ** Reading a frame *)

(** The scores [cfi_values] yields when no division fails. *)
Fixpoint cfi_list (p r c : list Q) : list Q :=
  match p, r, c with
  | x :: p', y :: r', z :: c' => (x * y) / (z + epsilon) :: cfi_list p' r' c'
  | _, _, _ => []
  end.

(** [df[name][i]] as a number: [None] when the column is missing or not
    float64, has no row [i], or holds NaN there. *)
Definition float_at (df : DataFrame) (name : string) (i : nat) : option Q :=
  match cols df !! name with
  | Some (FloatCol l) => mjoin (l !! i)
  | _ => None
  end.

(** The numbers of the float64 column [name], NaN skipped. *)
Definition float_values (df : DataFrame) (name : string) : list Q :=
  match cols df !! name with
  | Some (FloatCol l) => omap id l
  | _ => []
  end.

(** The scores of a frame's three raw indicators, scaled by [scaler]. *)
Definition scores (scaler : list Q → list Q) (df : DataFrame) : list Q :=
  cfi_list (scaler (float_values df "extreme_poverty_share"))
           (scaler (float_values df "revenue_gap_pct"))
           (scaler (float_values df "co2_per_capita")).

(** The merged frame of [load_and_merge]. *)
Definition merged (co2 poverty revenue : table) (latest_year : pyval) : DataFrame :=
  (load_and_merge co2 poverty revenue latest_year).1.

(** ** What a stage leaves untouched *)

(** [df'] has the rows of [df] and the same column under every name
    outside [assigned]. *)
Definition unchanged_but (assigned : list string) (df df' : DataFrame) : Prop :=
  nrows df' = nrows df ∧ ∀ c, c ∉ assigned → cols df' !! c = cols df !! c.

(** A computation that assigns columns under the names [assigned] only. *)
Definition assigns {A : Type} (assigned : list string) (m : M A) : Prop :=
  ∀ df, unchanged_but assigned df (m df).2.

Definition normalize_names : list string :=
  ["co2_mm"; "poverty_mm"; "revenue_mm"; "co2_z"; "poverty_z"; "revenue_z"].
Definition cfi_names : list string := ["CFI"; "CFI_rank"; "CFI_decile"].
Definition cluster_names : list string := ["cluster"; "cluster_label"].
(** The raw indicators and the columns holding their min-max scaling. *)
Definition features : list (string * string) :=
  [("co2_per_capita", "co2_mm"); ("extreme_poverty_share", "poverty_mm");
   ("revenue_gap_pct", "revenue_mm")].
Definition raw_names : list string :=
  ["country"; "co2_per_capita"; "extreme_poverty_share"; "revenue_gap_pct"].

(** ** Frames between the stages *)

(** The frame [normalize] leaves: the six scaled columns on top of [df]. *)
Definition normalized (tiny : Q) (sqrtQ : Q → Q) (df : DataFrame)
    (xs ps rs : list Q) : DataFrame :=
  {| nrows := nrows df;
     cols := <["revenue_z" := float_col (standard_column tiny sqrtQ rs)]>
             (<["poverty_z" := float_col (standard_column tiny sqrtQ ps)]>
             (<["co2_z" := float_col (standard_column tiny sqrtQ xs)]>
             (<["revenue_mm" := float_col (minmax_column tiny rs)]>
             (<["poverty_mm" := float_col (minmax_column tiny ps)]>
             (<["co2_mm" := float_col (minmax_column tiny xs)]> (cols df)))))) |}.

(** The frame once the scores and their ranks are assigned. *)
Definition with_cfi (df : DataFrame) (cfi : list Q) : DataFrame :=
  {| nrows := nrows df;
     cols := <["CFI_rank" := float_col (rank_desc cfi)]>
             (<["CFI" := float_col cfi]> (cols df)) |}.

Definition with_decile (df : DataFrame) (labels : list (option Z)) : DataFrame :=
  {| nrows := nrows df;
     cols := <["CFI_decile" := labels_plus_one labels]> (cols df) |}.

(** ** Quantiles and deciles *)

(** Entry [j] of a sorted column. *)
Definition at_ (s : list Q) (j : nat) : Q := default 0 (s !! j).

(** No two rows hold the same value. *)
Definition pairwise_distinct (l : list Q) : Prop :=
  ∀ i j x y, l !! i = Some x → l !! j = Some y → x == y → i = j.

(** ** Running the model: stand-ins for the libraries, sample tables *)

(** A rational square root, exact on the squares and rounded down to the
    argument's denominator otherwise. *)
Definition isqrtQ (q : Q) : Q := Z.sqrt (Qnum q * Zpos (Qden q)) # Qden q.

(** A clustering that refuses fewer rows than clusters, as k-means does,
    and deals the labels out in turn otherwise. *)
Definition round_robin (n_clusters : nat) (random_state : Z)
    (X : list (Q * Q * Q)) : result (list Z) :=
  if decide (length X < n_clusters)%nat
  then Raise (ValueError "n_samples should be >= n_clusters")
  else Ok ((λ i, Z.of_nat (i mod n_clusters)) <$> seq 0 (length X)).

(** The threshold of the later scikit-learn releases: ten times 2^-52. *)
Definition ten_eps : Q := 10 * (1 # 4503599627370496).

Definition row (country : string) (year : Z) (value : Q) : obs :=
  Obs (Some country) (Some year) (Some value).

(** The three countries of the specification's example, with a stray
    earlier and later year. *)
Definition sample_co2 : table :=
  [row "A" 2020 1; row "B" 2020 5; row "C" 2020 10; row "A" 2019 2].
Definition sample_poverty : table :=
  [row "A" 2020 (1 # 2); row "B" 2020 (3 # 10); row "C" 2020 (1 # 10)].
Definition sample_revenue : table :=
  [row "A" 2020 10; row "B" 2020 5; row "C" 2020 1; row "D" 2021 7].
Definition sample : DataFrame :=
  merged sample_co2 sample_poverty sample_revenue PyNone.

(** Twelve countries; "A" has the least revenue gap and "B" the least
    poverty, so both score 0. *)
Definition twelve_names : list string :=
  ["A"; "B"; "C"; "D"; "E"; "F"; "G"; "H"; "I"; "J"; "K"; "L"].
Definition twelve_table (values : list Q) : table :=
  zip_with (λ c v, row c 2020 v) twelve_names values.
Definition twelve_co2 : table :=
  twelve_table [1; 2; 3; 4; 5; 6; 7; 8; 9; 10; 11; 12].
Definition twelve_poverty : table :=
  twelve_table [5; 0; 1; 2; 3; 4; 5; 6; 7; 8; 9; 10].
Definition twelve_revenue : table :=
  twelve_table [0; 5; 1; 2; 3; 4; 5; 6; 7; 8; 9; 10].
Definition twelve : DataFrame :=
  merged twelve_co2 twelve_poverty twelve_revenue PyNone.

(** Two countries, each lowest on one indicator: both score 0. *)
Definition pair_co2 : table := [row "A" 2020 1; row "B" 2020 2].
Definition pair_poverty : table := [row "A" 2020 1; row "B" 2020 2].
Definition pair_revenue : table := [row "A" 2020 2; row "B" 2020 1].
Definition pair : DataFrame := merged pair_co2 pair_poverty pair_revenue PyNone.

(** The same two countries with equal emissions. *)
Definition level_co2 : table := [row "A" 2020 5; row "B" 2020 5].
Definition level : DataFrame := merged level_co2 pair_poverty pair_revenue PyNone.

(** A CO2 file that lists "A" twice for 2020. *)
Definition twice_co2 : table := [row "A" 2020 1; row "A" 2020 2].
Definition once_poverty : table := [row "A" 2020 (1 # 2)].
Definition once_revenue : table := [row "A" 2020 3].

(** The annotated twelve countries with coordinates added by hand, the
    second row's latitude missing. *)
Definition located : DataFrame :=
  final (setitem "latitude"
           (FloatCol (Some 10 :: None :: replicate 10 (Some 0)));;
         setitem "longitude" (FloatCol (replicate 12 (Some 20))))
    (final (annotate 0 isqrtQ round_robin) twelve).

(** ** Cells and shape of a frame *)

(** [df[name][i]] as a string or an integer, [None] as for [float_at]. *)
Definition str_at (df : DataFrame) (name : string) (i : nat) : option string :=
  match cols df !! name with
  | Some (ObjCol l) => mjoin (l !! i)
  | _ => None
  end.

Definition int_at (df : DataFrame) (name : string) (i : nat) : option Z :=
  match cols df !! name with
  | Some (IntCol l) => l !! i
  | _ => None
  end.

(** Every column has one entry per row. *)
Definition well_formed (df : DataFrame) : Prop :=
  ∀ name c, cols df !! name = Some c → col_len c = nrows df.

(** What [get_floats] reads under [name]. *)
Definition read_floats (bad : exn) (df : DataFrame) (name : string)
  : result (list Q) :=
  match cols df !! name with
  | Some c => to_floats bad c
  | None => Raise (KeyError name)
  end.

(** The sum of a list of counts. *)
Definition total (l : list nat) : nat := foldr Nat.add 0%nat l.

(** ** Rows with coordinates *)

(** Row [i] has a latitude and a longitude, neither of them null. *)
Definition has_location (df : DataFrame) (i : nat) : bool :=
  notnull (row_get df i "latitude") && notnull (row_get df i "longitude").

Definition located_rows (df : DataFrame) : list nat :=
  filter (λ i, Is_true (has_location df i)) (seq 0 (nrows df)).

(** The sample countries with coordinates added by hand, the second
    latitude missing, and no clustering. *)
Definition unclustered : DataFrame :=
  final (setitem "latitude" (FloatCol [Some 10; None; Some 30]);;
         setitem "longitude" (FloatCol [Some 20; Some 20; Some 20])) sample.

(** The markers of the twelve countries with coordinates. *)
Definition located_markers : list marker :=
  Eval vm_compute in
    match outcome marker_map located with Ok ms => ms | Raise _ => [] end.

(** A frame after [normalize] and [compute_cfi], under the exact stand-ins. *)
Definition scored (df : DataFrame) : DataFrame :=
  final compute_cfi (final (normalize 0 isqrtQ) df).

(** ** The min-max scaler in binary64

    [MinMaxScaler().fit_transform] on one feature once more, operation by
    operation as scikit-learn performs it, on IEEE binary64 numbers: to see
    what rounding does to the exact formula. *)

Definition b64_min (l : list float) : float :=
  match l with
  | [] => nan
  | x :: l' => foldl (λ a b, if PrimFloat.ltb b a then b else a) x l'
  end.

Definition b64_max (l : list float) : float :=
  match l with
  | [] => nan
  | x :: l' => foldl (λ a b, if PrimFloat.ltb a b then b else a) x l'
  end.

(** The machine epsilon, 2^-52. *)
Definition b64_eps : float := 0x1p-52%float.

Definition handle_zeros_in_scale_b64 (scale : float) : float :=
  if PrimFloat.ltb scale (10 * b64_eps)%float then 1%float else scale.

Definition minmax_column_b64 (l : list float) : list float :=
  let data_min := b64_min l in
  let data_max := b64_max l in
  let data_range := (data_max - data_min)%float in
  let scale_ := ((1 - 0) / handle_zeros_in_scale_b64 data_range)%float in
  let min_ := (0 - data_min * scale_)%float in
  (λ x, (x * scale_ + min_)%float) <$> l.

(** * Properties *)

(** ** Loading and merging *)

Lemma select_year_keys t year :
  (select_year t year).*1 = countries_in_year t year.
Proof.
  unfold select_year, countries_in_year.
  by rewrite <- list_fmap_compose.
Qed.

Section merge_facts.
Context {A B : Type}.
Implicit Types (left : list (option string * A)) (right : list (option string * B)).

Lemma merge_cons l left right :
  merge (l :: left) right =
  ((λ r, (l.1, (l.2, r.2))) <$> filter (λ r, r.1 = l.1) right) ++ merge left right.
Proof. reflexivity. Qed.

Lemma matches_keys (k : option string) (a : A) right :
  ((λ r : option string * B, (k, (a, r.2))) <$> filter (λ r, r.1 = k) right).*1
  = (filter (λ r, r.1 = k) right).*1.
Proof.
  induction right as [|r right IH]; [done|].
  rewrite filter_cons. case_decide as Hk; [|done].
  cbn. by rewrite IH, Hk.
Qed.

Lemma merge_keys_left k left right :
  k ∈ (merge left right).*1 → k ∈ left.*1.
Proof.
  induction left as [|l left IH]; [done|].
  rewrite merge_cons, fmap_app, elem_of_app, matches_keys.
  intros [Hk | Hk].
  - apply list_elem_of_fmap in Hk as ([k' b] & -> & Hin).
    apply list_elem_of_filter in Hin as [Heq _].
    cbn in *. subst. left.
  - right. by apply IH.
Qed.

End merge_facts.

Lemma merged_rows_countries co2 poverty revenue year :
  m_country <$> merged_rows co2 poverty revenue year
  = (merge (merge (select_year co2 year) (select_year poverty year))
           (select_year revenue year)).*1.
Proof.
  unfold merged_rows. cbn. by rewrite <- list_fmap_compose.
Qed.

Lemma all_some_fmap {A : Type} (l : list (option A)) :
  Forall is_Some l → ∃ k, l = Some <$> k ∧ length k = length l.
Proof.
  induction 1 as [|o l [a ->] _ (k & -> & Hlen)].
  - by exists [].
  - exists (a :: k). cbn. by rewrite Hlen.
Qed.

Lemma dropna_complete rows : Forall (λ r, complete r) (dropna rows).
Proof.
  apply Forall_forall. intros r Hr.
  by apply list_elem_of_filter in Hr as [? _].
Qed.

Lemma complete_fields r :
  complete r →
  is_Some (m_country r) ∧ is_Some (m_co2 r) ∧ is_Some (m_poverty r) ∧ is_Some (m_revenue r).
Proof.
  unfold complete. rewrite !andb_True, !bool_decide_spec. tauto.
Qed.

(** A frame built from complete rows holds four columns without a missing
    entry. *)
Lemma frame_of_complete_rows rows :
  Forall (λ r, complete r) rows →
  ∃ cs xs ps rs,
    m_country <$> rows = Some <$> cs ∧ m_co2 <$> rows = Some <$> xs ∧
    m_poverty <$> rows = Some <$> ps ∧ m_revenue <$> rows = Some <$> rs ∧
    length cs = length rows ∧ length xs = length rows ∧
    length ps = length rows ∧ length rs = length rows.
Proof.
  intros Hc.
  destruct (all_some_fmap (m_country <$> rows)) as (cs & Hcs & Hlc).
  { apply Forall_fmap. eapply Forall_impl; [exact Hc|].
    intros r Hr. by apply complete_fields in Hr as (? & _). }
  destruct (all_some_fmap (m_co2 <$> rows)) as (xs & Hxs & Hlx).
  { apply Forall_fmap. eapply Forall_impl; [exact Hc|].
    intros r Hr. by apply complete_fields in Hr as (_ & ? & _). }
  destruct (all_some_fmap (m_poverty <$> rows)) as (ps & Hps & Hlp).
  { apply Forall_fmap. eapply Forall_impl; [exact Hc|].
    intros r Hr. by apply complete_fields in Hr as (_ & _ & ? & _). }
  destruct (all_some_fmap (m_revenue <$> rows)) as (rs & Hrs & Hlr).
  { apply Forall_fmap. eapply Forall_impl; [exact Hc|].
    intros r Hr. by apply complete_fields in Hr as (_ & _ & _ & ?). }
  exists cs, xs, ps, rs.
  rewrite length_fmap in Hlc. rewrite length_fmap in Hlx.
  rewrite length_fmap in Hlp. rewrite length_fmap in Hlr.
  by split_and!.
Qed.

Lemma frame_of_rows_lookup rows :
  cols (frame_of_rows rows) !! "country" = Some (ObjCol (m_country <$> rows)) ∧
  cols (frame_of_rows rows) !! "co2_per_capita" = Some (FloatCol (m_co2 <$> rows)) ∧
  cols (frame_of_rows rows) !! "extreme_poverty_share" = Some (FloatCol (m_poverty <$> rows)) ∧
  cols (frame_of_rows rows) !! "revenue_gap_pct" = Some (FloatCol (m_revenue <$> rows)).
Proof. by split_and!. Qed.





Lemma omap_id_sublist {A : Type} (l k : list (option A)) :
  l `sublist_of` k → omap id l `sublist_of` omap id k.
Proof.
  induction 1 as [|x l k _ IH|x l k _ IH]; [constructor|..]; destruct x; cbn.
  - by constructor.
  - done.
  - by apply sublist_cons.
  - done.
Qed.

Lemma omap_id_Some {A : Type} (l : list A) : omap id (Some <$> l) = l.
Proof. induction l as [|x l IH]; [done|]. cbn. by rewrite IH. Qed.

(** A merge of tables that name no country twice names no country twice;
    rows without a country, which match each other, do not count. *)
Lemma merge_named_NoDup {A B : Type} (left : list (option string * A))
    (right : list (option string * B)) :
  NoDup (omap id left.*1) → NoDup (omap id right.*1) →
  NoDup (omap id (merge left right).*1).
Proof.
  intros Hl Hr. induction left as [|l left IH]; [constructor|].
  rewrite merge_cons, fmap_app, omap_app, matches_keys.
  assert (NoDup (omap id left.*1)) as Hl'.
  { rewrite fmap_cons in Hl. destruct (l.1) as [c|]; cbn in Hl; [|done].
    by apply NoDup_cons in Hl as [_ ?]. }
  apply NoDup_app. split_and!.
  - eapply sublist_NoDup; [exact Hr|].
    apply omap_id_sublist, fmap_sublist, sublist_filter.
  - intros c Hc Hc'.
    apply list_elem_of_omap in Hc as (k & Hk & Hkc). cbn in Hkc. subst k.
    apply list_elem_of_fmap in Hk as ([k' b] & Hk & Hin).
    apply list_elem_of_filter in Hin as [Heq _]. cbn in Hk, Heq. subst k'.
    apply list_elem_of_omap in Hc' as (k & Hk' & Hkc). cbn in Hkc. subst k.
    apply merge_keys_left in Hk'.
    rewrite fmap_cons, <- Heq in Hl. cbn in Hl.
    apply NoDup_cons in Hl as [Hnotin _]. apply Hnotin.
    apply list_elem_of_omap. by exists (Some c).
  - by apply IH.
Qed.

(** C6, amended.  The merged frame's four columns are free of missing
    entries, whatever the tables hold; and when no table names a country
    twice among its rows of the selected year, the frame holds every country
    at most once. *)
Theorem load_and_merge_one_record_per_country co2 poverty revenue latest_year :
  ∃ cs xs ps rs,
    cols (load_and_merge co2 poverty revenue latest_year).1 !! "country"
      = Some (ObjCol (Some <$> cs)) ∧
    cols (load_and_merge co2 poverty revenue latest_year).1 !! "co2_per_capita"
      = Some (FloatCol (Some <$> xs)) ∧
    cols (load_and_merge co2 poverty revenue latest_year).1 !! "extreme_poverty_share"
      = Some (FloatCol (Some <$> ps)) ∧
    cols (load_and_merge co2 poverty revenue latest_year).1 !! "revenue_gap_pct"
      = Some (FloatCol (Some <$> rs)) ∧
    length cs = nrows (load_and_merge co2 poverty revenue latest_year).1 ∧
    length xs = nrows (load_and_merge co2 poverty revenue latest_year).1 ∧
    length ps = nrows (load_and_merge co2 poverty revenue latest_year).1 ∧
    length rs = nrows (load_and_merge co2 poverty revenue latest_year).1 ∧
    (NoDup (named_countries co2 (load_and_merge co2 poverty revenue latest_year).2) →
     NoDup (named_countries poverty
              (load_and_merge co2 poverty revenue latest_year).2) →
     NoDup (named_countries revenue
              (load_and_merge co2 poverty revenue latest_year).2) →
     NoDup cs).
Proof.
  unfold load_and_merge. cbn [fst snd].
  set (year := py_or _ _).
  set (rows := dropna _).
  destruct (frame_of_complete_rows rows (dropna_complete _))
    as (cs & xs & ps & rs & Hcs & Hxs & Hps & Hrs & ? & ? & ? & ?).
  destruct (frame_of_rows_lookup rows) as (-> & -> & -> & ->).
  exists cs, xs, ps, rs. rewrite Hcs, Hxs, Hps, Hrs.
  split_and!; try done.
  unfold named_countries. intros Hco2 Hpov Hrev.
  rewrite <- (omap_id_Some cs), <- Hcs.
  eapply sublist_NoDup;
    [|apply omap_id_sublist, fmap_sublist; unfold rows, dropna; apply sublist_filter].
  rewrite merged_rows_countries.
  apply merge_named_NoDup; [apply merge_named_NoDup|]; by rewrite select_year_keys.
Qed.

(** Every merged frame is built from complete rows. *)
Lemma load_and_merge_frame co2 poverty revenue latest_year :
  ∃ xs ps rs,
    cols (load_and_merge co2 poverty revenue latest_year).1 !! "co2_per_capita"
      = Some (float_col xs) ∧
    cols (load_and_merge co2 poverty revenue latest_year).1 !! "extreme_poverty_share"
      = Some (float_col ps) ∧
    cols (load_and_merge co2 poverty revenue latest_year).1 !! "revenue_gap_pct"
      = Some (float_col rs) ∧
    length xs = nrows (load_and_merge co2 poverty revenue latest_year).1 ∧
    length ps = nrows (load_and_merge co2 poverty revenue latest_year).1 ∧
    length rs = nrows (load_and_merge co2 poverty revenue latest_year).1.
Proof.
  unfold load_and_merge. cbn [fst snd].
  set (rows := dropna _).
  destruct (frame_of_complete_rows rows (dropna_complete _))
    as (cs & xs & ps & rs & Hcs & Hxs & Hps & Hrs & ? & ? & ? & ?).
  destruct (frame_of_rows_lookup rows) as (_ & -> & -> & ->).
  exists xs, ps, rs. unfold float_col. rewrite Hxs, Hps, Hrs. by split_and!.
Qed.

(** ** Reading a frame *)

Lemma float_at_float_col df name l i :
  cols df !! name = Some (float_col l) → float_at df name i = l !! i.
Proof.
  intros H. unfold float_at. rewrite H. unfold float_col.
  rewrite list_lookup_fmap. by destruct (l !! i).
Qed.

Lemma float_values_float_col df name l :
  cols df !! name = Some (float_col l) → float_values df name = l.
Proof.
  intros H. unfold float_values. rewrite H. unfold float_col.
  clear H. induction l as [|x l IH]; [done|].
  rewrite fmap_cons. cbn. f_equal. exact IH.
Qed.

(** ** Running a stage *)

Lemma all_present_some {A : Type} (l : list A) : all_present (Some <$> l) = Some l.
Proof. unfold all_present. by apply mapM_fmap_Some. Qed.

Lemma get_floats_ok bad name df l :
  cols df !! name = Some (float_col l) → get_floats bad name df = (Ok l, df).
Proof.
  intros H. unfold get_floats, getitem, mbind, M_bind, lift. rewrite H.
  cbn. by rewrite all_present_some.
Qed.

Lemma setitem_ok name c df :
  col_len c = nrows df →
  setitem name c df = (Ok (), {| nrows := nrows df; cols := <[name := c]> (cols df) |}).
Proof. intros H. unfold setitem. by rewrite decide_True. Qed.

Lemma col_len_float_col l : col_len (float_col l) = length l.
Proof. cbn. by rewrite length_fmap. Qed.

(** ** What a stage leaves untouched *)

Lemma unchanged_but_refl assigned df : unchanged_but assigned df df.
Proof. by split. Qed.

Lemma unchanged_but_trans assigned df1 df2 df3 :
  unchanged_but assigned df1 df2 → unchanged_but assigned df2 df3 →
  unchanged_but assigned df1 df3.
Proof.
  intros [Hn1 Hc1] [Hn2 Hc2]. split; [congruence|].
  intros c Hc. by rewrite Hc2, Hc1.
Qed.

Lemma assigns_ret {A : Type} assigned (a : A) : assigns assigned (mret a).
Proof. intros df. apply unchanged_but_refl. Qed.

Lemma assigns_raise {A : Type} assigned e : assigns assigned (raise (A := A) e).
Proof. intros df. apply unchanged_but_refl. Qed.

Lemma assigns_lift {A : Type} assigned (r : result A) : assigns assigned (lift r).
Proof. intros df. apply unchanged_but_refl. Qed.

Lemma assigns_getitem assigned name : assigns assigned (getitem name).
Proof.
  intros df. unfold getitem. destruct (cols df !! name); apply unchanged_but_refl.
Qed.

Lemma assigns_setitem assigned name c :
  name ∈ assigned → assigns assigned (setitem name c).
Proof.
  intros Hin df. unfold setitem. case_decide; [|apply unchanged_but_refl].
  split; [done|]. intros c' Hc'. cbn. apply lookup_insert_ne. by intros ->.
Qed.

Lemma assigns_bind {A B : Type} assigned (m : M A) (f : A → M B) :
  assigns assigned m → (∀ a, assigns assigned (f a)) → assigns assigned (m ≫= f).
Proof.
  intros Hm Hf df. unfold mbind, M_bind.
  specialize (Hm df). destruct (m df) as [[a|e] df']; cbn in *; [|done].
  eapply unchanged_but_trans; [exact Hm|apply Hf].
Qed.

Lemma assigns_get_floats assigned bad name : assigns assigned (get_floats bad name).
Proof.
  apply assigns_bind; [apply assigns_getitem|]. intros c. apply assigns_lift.
Qed.

Lemma assigns_get_ints assigned name : assigns assigned (get_ints name).
Proof.
  unfold get_ints. apply assigns_bind; [apply assigns_getitem|].
  intros [| |]; auto using assigns_ret, assigns_raise.
Qed.

Lemma assigns_raw3 assigned bad : assigns assigned (raw3 bad).
Proof.
  unfold raw3.
  repeat (apply assigns_bind; [apply assigns_get_floats|intros ?]).
  apply assigns_ret.
Qed.

Lemma assigns_fit_transform assigned scaler X :
  assigns assigned (fit_transform scaler X).
Proof.
  intros df. unfold fit_transform. case_decide; apply unchanged_but_refl.
Qed.

Lemma assigns_set3 assigned n1 n2 n3 X :
  n1 ∈ assigned → n2 ∈ assigned → n3 ∈ assigned →
  assigns assigned (set3 n1 n2 n3 X).
Proof.
  intros H1 H2 H3. unfold set3.
  destruct X as [|a [|b [|c [|]]]]; try apply assigns_raise.
  repeat (apply assigns_bind; [|intros ?]); by apply assigns_setitem.
Qed.

Lemma assigns_mono {A : Type} assigned assigned' (m : M A) :
  assigned ⊆ assigned' → assigns assigned m → assigns assigned' m.
Proof.
  intros Hsub Hm df. destruct (Hm df) as [Hn Hc]. split; [done|].
  intros c Hc'. apply Hc. intros Hin. apply Hc'. by apply Hsub.
Qed.

(** Membership goals on concrete lists of column names. *)
Ltac names := apply (bool_decide_unpack _); vm_compute; exact I.

(** Decompose a stage into its reads and assignments. *)
Ltac frame :=
  repeat first
    [ apply assigns_raw3 | apply assigns_fit_transform
    | apply assigns_set3; [names..]
    | apply assigns_get_floats | apply assigns_get_ints
    | apply assigns_getitem | apply assigns_lift
    | apply assigns_raise | apply assigns_ret
    | apply assigns_setitem; names
    | apply assigns_bind; [|intros ?]
    | match goal with
      | |- assigns _ (match ?x with _ => _ end) => destruct x
      end ].

(** ** Minimum and maximum of a column *)

Lemma Qlt_b_iff x y : Qlt_b x y = true ↔ x < y.
Proof.
  unfold Qlt_b. rewrite negb_true_iff.
  destruct (Qle_bool y x) eqn:E.
  - apply Qle_bool_iff in E. split; [done|lra].
  - split; [|done]. intros _. apply Qnot_le_lt. intros H.
    apply Qle_bool_iff in H. congruence.
Qed.

Lemma fmin_spec x y : (x <= y ∧ fmin x y = x) ∨ (y < x ∧ fmin x y = y).
Proof.
  unfold fmin. destruct (Qle_bool x y) eqn:E.
  - left. by apply Qle_bool_iff in E.
  - right. split; [|done]. apply Qnot_le_lt. intros H.
    apply Qle_bool_iff in H. congruence.
Qed.

Lemma fmax_spec x y : (x <= y ∧ fmax x y = y) ∨ (y < x ∧ fmax x y = x).
Proof.
  unfold fmax. destruct (Qle_bool x y) eqn:E.
  - left. by apply Qle_bool_iff in E.
  - right. split; [|done]. apply Qnot_le_lt. intros H.
    apply Qle_bool_iff in H. congruence.
Qed.

Lemma foldl_fmin_le a l : foldl fmin a l <= a ∧ ∀ x, x ∈ l → foldl fmin a l <= x.
Proof.
  revert a. induction l as [|y l IH]; intros a; cbn.
  - split; [lra|]. by intros x ?%elem_of_nil.
  - destruct (IH (fmin a y)) as [Ha Hl].
    destruct (fmin_spec a y) as [[Hle Heq] | [Hlt Heq]]; rewrite Heq in *.
    + split; [done|]. intros x [-> | Hx]%elem_of_cons; [lra|by apply Hl].
    + split; [lra|]. intros x [-> | Hx]%elem_of_cons; [done|by apply Hl].
Qed.

Lemma foldl_fmin_in a l : foldl fmin a l ∈ a :: l.
Proof.
  revert a. induction l as [|y l IH]; intros a; cbn; [left|].
  specialize (IH (fmin a y)). apply elem_of_cons.
  destruct (fmin_spec a y) as [[_ Heq] | [_ Heq]]; rewrite Heq in IH |- *.
  - apply elem_of_cons in IH as [IH | IH]; [by left|]. right. by right.
  - by right.
Qed.

Lemma foldl_fmax_ge a l : a <= foldl fmax a l ∧ ∀ x, x ∈ l → x <= foldl fmax a l.
Proof.
  revert a. induction l as [|y l IH]; intros a; cbn.
  - split; [lra|]. by intros x ?%elem_of_nil.
  - destruct (IH (fmax a y)) as [Ha Hl].
    destruct (fmax_spec a y) as [[Hle Heq] | [Hlt Heq]]; rewrite Heq in *.
    + split; [lra|]. intros x [-> | Hx]%elem_of_cons; [done|by apply Hl].
    + split; [done|]. intros x [-> | Hx]%elem_of_cons; [lra|by apply Hl].
Qed.

(** [col_min] is a lower bound of the column and one of its entries. *)
Lemma col_min_le l x : x ∈ l → col_min l <= x.
Proof.
  destruct l as [|a l]; [by intros ?%elem_of_nil|]. cbn.
  destruct (foldl_fmin_le a l) as [Ha Hl].
  intros [-> | Hx]%elem_of_cons; [done|by apply Hl].
Qed.

Lemma col_min_in l : l ≠ [] → col_min l ∈ l.
Proof. destruct l as [|a l]; [done|]. intros _. apply foldl_fmin_in. Qed.

Lemma col_max_ge l x : x ∈ l → x <= col_max l.
Proof.
  destruct l as [|a l]; [by intros ?%elem_of_nil|]. cbn.
  destruct (foldl_fmax_ge a l) as [Ha Hl].
  intros [-> | Hx]%elem_of_cons; [done|by apply Hl].
Qed.

(** ** The index *)

Lemma epsilon_pos : 0 < epsilon.
Proof. reflexivity. Qed.

Lemma float_div_pos a b : 0 < b → float_div a b = Some (a / b).
Proof.
  intros Hb. unfold float_div.
  destruct (Qeq_bool b 0) eqn:E; [|done].
  apply Qeq_bool_iff in E. lra.
Qed.

Lemma cfi_values_present p r c :
  Forall (λ z, 0 <= z) c →
  all_present (cfi_values p r c) = Some (cfi_list p r c).
Proof.
  intros Hc. revert p r.
  induction Hc as [|z c Hz _ IH]; intros [|x p] [|y r]; try done.
  cbn [cfi_values cfi_list].
  pose proof epsilon_pos.
  rewrite float_div_pos by lra.
  unfold all_present in *. cbn. by rewrite IH.
Qed.

Lemma length_cfi_list p r c n :
  length p = n → length r = n → length c = n → length (cfi_list p r c) = n.
Proof.
  revert p r c. induction n as [|n IH]; intros [|x p] [|y r] [|z c]; try done.
  cbn. intros [= ?] [= ?] [= ?]. f_equal. by apply IH.
Qed.

Lemma cfi_list_lookup p r c i x y z :
  p !! i = Some x → r !! i = Some y → c !! i = Some z →
  cfi_list p r c !! i = Some ((x * y) / (z + epsilon)).
Proof.
  revert p r c. induction i as [|i IH]; intros [|x' p] [|y' r] [|z' c]; try done.
  - by intros [= ->] [= ->] [= ->].
  - cbn. apply IH.
Qed.

Lemma length_qcut values q labels :
  qcut values q = Ok labels → length labels = length values.
Proof.
  unfold qcut. case_decide; [done|]. intros [= <-]. by rewrite length_fmap.
Qed.

Lemma col_len_labels_plus_one labels :
  col_len (labels_plus_one labels) = length labels.
Proof.
  unfold labels_plus_one, all_present.
  destruct (mapM id labels) as [zs|] eqn:E; cbn; rewrite length_fmap; [|done].
  by apply length_mapM in E.
Qed.

Lemma length_rank_desc l : length (rank_desc l) = length l.
Proof. unfold rank_desc. by rewrite length_fmap. Qed.

(** How [compute_cfi] runs on a frame whose scaled emissions are not
    negative: the scores and ranks are always assigned, the deciles when
    [qcut] returns. *)
Lemma compute_cfi_run df p r c :
  cols df !! "poverty_mm" = Some (float_col p) →
  cols df !! "revenue_mm" = Some (float_col r) →
  cols df !! "co2_mm" = Some (float_col c) →
  length p = nrows df → length r = nrows df → length c = nrows df →
  Forall (λ z, 0 <= z) c →
  compute_cfi df =
    match qcut (cfi_list p r c) 10 with
    | Ok labels => (Ok (), with_decile (with_cfi df (cfi_list p r c)) labels)
    | Raise e => (Raise e, with_cfi df (cfi_list p r c))
    end.
Proof.
  intros Hp Hr Hc Hlp Hlr Hlc Hpos.
  unfold compute_cfi, mbind, M_bind. cbv beta.
  rewrite (get_floats_ok _ _ _ _ Hp), (get_floats_ok _ _ _ _ Hr),
    (get_floats_ok _ _ _ _ Hc).
  rewrite (cfi_values_present _ _ _ Hpos).
  pose proof (length_cfi_list _ _ _ _ Hlp Hlr Hlc) as Hlen.
  rewrite setitem_ok by (by rewrite col_len_float_col).
  rewrite (get_floats_ok _ "CFI" _ (cfi_list p r c))
    by (cbn; by rewrite lookup_insert_eq).
  rewrite setitem_ok
    by (by rewrite col_len_float_col, length_rank_desc).
  rewrite (get_floats_ok _ "CFI" _ (cfi_list p r c))
    by (cbn; by rewrite lookup_insert_ne, lookup_insert_eq by done).
  unfold lift. destruct (qcut (cfi_list p r c) 10) as [labels|e] eqn:Eq; [|done].
  rewrite setitem_ok; [done|].
  rewrite col_len_labels_plus_one. cbn. apply length_qcut in Eq. congruence.
Qed.

(** ** Ranks *)

Lemma of_nat_le (a b : nat) : (a ≤ b)%nat → of_nat a <= of_nat b.
Proof. intros H. unfold of_nat. rewrite <- Zle_Qle. lia. Qed.

Lemma of_nat_lt (a b : nat) : (a < b)%nat → of_nat a < of_nat b.
Proof. intros H. unfold of_nat. rewrite <- Zlt_Qlt. lia. Qed.

Lemma of_nat_add (a b : nat) : of_nat (a + b) == of_nat a + of_nat b.
Proof. unfold of_nat. by rewrite Nat2Z.inj_add, inject_Z_plus. Qed.

Lemma count_cons f x l :
  count f (x :: l) = ((if f x then 1 else 0) + count f l)%nat.
Proof.
  unfold count. rewrite filter_cons.
  destruct (f x); case_decide as H; cbn in *; done.
Qed.


Lemma count_pos f l x : x ∈ l → f x = true → (0 < count f l)%nat.
Proof.
  induction l as [|y l IH]; [by intros ?%elem_of_nil|].
  rewrite count_cons. intros [-> | Hin]%elem_of_cons Hf.
  - rewrite Hf. lia.
  - specialize (IH Hin Hf). lia.
Qed.




Lemma rank_desc_lookup l i v :
  l !! i = Some v →
  rank_desc l !! i
  = Some (of_nat (count (λ w, Qlt_b v w) l)
          + (of_nat (count (λ w, Qeq_bool w v) l) + 1) / 2).
Proof. intros H. unfold rank_desc. by rewrite list_lookup_fmap, H. Qed.


(** ** Quantile bins *)

Global Instance Qle_total : Total Qle.
Proof. intros x y. destruct (Qlt_le_dec x y); [left; lra | by right]. Qed.

Global Instance Qle_trans' : Transitive Qle.
Proof. intros x y z. apply Qle_trans. Qed.

Global Instance Qlt_trans' : Transitive Qlt.
Proof. intros x y z. apply Qlt_trans. Qed.

Lemma at_lookup s j x : s !! j = Some x → at_ s j = x.
Proof. unfold at_. by intros ->. Qed.

Lemma lookup_at s j : (j < length s)%nat → s !! j = Some (at_ s j).
Proof.
  intros Hj. destruct (lookup_lt_is_Some_2 s j Hj) as [x Hx].
  by rewrite (at_lookup _ _ _ Hx).
Qed.

Lemma StronglySorted_lookup {A : Type} (R : relation A) l i j a b :
  StronglySorted R l → l !! i = Some a → l !! j = Some b → (i < j)%nat → R a b.
Proof.
  intros Hl. revert i j. induction Hl as [|x l Hl IH Hx]; intros i j; [done|].
  destruct i as [|i], j as [|j]; try lia; cbn.
  - intros [= ->] Hb _. rewrite Forall_forall in Hx. apply Hx.
    by eapply list_elem_of_lookup_2.
  - intros Ha Hb Hij. apply (IH i j); [done..|lia].
Qed.

Lemma sorted_at_le s i j :
  StronglySorted Qle s → (i ≤ j)%nat → (j < length s)%nat → at_ s i <= at_ s j.
Proof.
  intros Hs Hij Hj. destruct (decide (i = j)) as [->|Hne]; [lra|].
  eapply (StronglySorted_lookup Qle s i j); [done| | |lia]; apply lookup_at; lia.
Qed.

Lemma sorted_bounds s x :
  StronglySorted Qle s → x ∈ s → at_ s 0 <= x ∧ x <= at_ s (length s - 1).
Proof.
  intros Hs [j Hj]%list_elem_of_lookup_1.
  pose proof (lookup_lt_Some _ _ _ Hj) as Hlt.
  rewrite <- (at_lookup _ _ _ Hj).
  split; apply sorted_at_le; try done; lia.
Qed.

Lemma quantile_first s q : quantile s 0 q == at_ s 0.
Proof.
  unfold quantile. cbn [Nat.mul].
  destruct q as [|q].
  - cbn. fold (at_ s 0). unfold Qdiv. change (of_nat 0) with 0. ring.
  - rewrite Nat.Div0.div_0_l, Nat.Div0.mod_0_l. fold (at_ s 0).
    change (of_nat 0) with 0. unfold Qdiv. ring.
Qed.

Lemma quantile_last s q :
  q ≠ 0%nat → quantile s q q == at_ s (length s - 1).
Proof.
  intros Hq. unfold quantile. rewrite (Nat.mul_comm q).
  rewrite Nat.div_mul, Nat.Div0.mod_mul by done.
  fold (at_ s (length s - 1)). change (of_nat 0) with 0. unfold Qdiv. ring.
Qed.

Lemma searchsorted_left_le bins x k b :
  bins !! k = Some b → ¬ b < x → (searchsorted_left bins x ≤ k)%nat.
Proof.
  revert k. induction bins as [|b0 bins IH]; intros k; [done|]. cbn.
  destruct (Qlt_b b0 x) eqn:E; [|lia].
  apply Qlt_b_iff in E.
  destruct k as [|k]; cbn.
  - intros [= ->]. done.
  - intros Hb Hx. specialize (IH _ Hb Hx). lia.
Qed.

Lemma searchsorted_left_pos bins x b :
  head bins = Some b → b < x → (1 ≤ searchsorted_left bins x)%nat.
Proof.
  destruct bins as [|b0 bins]; [done|]. cbn. intros [= ->] Hx.
  apply Qlt_b_iff in Hx. rewrite Hx. lia.
Qed.

Lemma qcut_bins_lookup v q k :
  (k ≤ q)%nat → qcut_bins v q !! k = Some (quantile (merge_sort Qle v) k q).
Proof.
  intros Hk. unfold qcut_bins. rewrite list_lookup_fmap, lookup_seq_lt by lia.
  done.
Qed.

Lemma length_qcut_bins v q : length (qcut_bins v q) = S q.
Proof. unfold qcut_bins. by rewrite length_fmap, length_seq. Qed.

(** Every value of the column falls into one of the [q] intervals. *)
Lemma bin_label_in_range v q x :
  q ≠ 0%nat → x ∈ v →
  ∃ z, bin_label (qcut_bins v q) x = Some z ∧ (0 ≤ z ≤ Z.of_nat q - 1)%Z.
Proof.
  intros Hq Hx.
  set (s := merge_sort Qle v).
  assert (StronglySorted Qle s) as Hs by apply (StronglySorted_merge_sort Qle).
  assert (x ∈ s) as Hxs by (unfold s; by rewrite merge_sort_Permutation).
  destruct (sorted_bounds s x Hs Hxs) as [Hlo Hhi].
  pose proof (qcut_bins_lookup v q 0 ltac:(lia)) as H0.
  pose proof (qcut_bins_lookup v q q ltac:(lia)) as Hlast.
  fold s in H0, Hlast.
  assert (head (qcut_bins v q) = Some (quantile s 0 q)) as Hhead.
  { by rewrite head_lookup. }
  unfold bin_label. rewrite Hhead, length_qcut_bins. cbn [from_option]. unfold id.
  destruct (Qeq_bool x (quantile s 0 q)) eqn:E; cbv beta zeta iota.
  - rewrite decide_False by lia. eexists; split; [done|lia].
  - apply Qeq_bool_neq in E. rewrite quantile_first in E.
    assert (1 ≤ searchsorted_left (qcut_bins v q) x)%nat.
    { eapply searchsorted_left_pos; [done|]. rewrite quantile_first. lra. }
    assert (searchsorted_left (qcut_bins v q) x ≤ q)%nat.
    { eapply searchsorted_left_le; [done|]. rewrite quantile_last by done. lra. }
    rewrite decide_False by lia. eexists; split; [done|lia].
Qed.

Lemma count_zero f l : (∀ x, x ∈ l → f x = false) → count f l = 0%nat.
Proof.
  induction l as [|x l IH]; [done|]. intros H.
  rewrite count_cons, (H x) by left. rewrite IH; [done|].
  intros y Hy. apply H. by right.
Qed.

Lemma labels_exist {A : Type} (f : A → option Z) (P : A → Z → Prop) v :
  (∀ x, x ∈ v → ∃ z, f x = Some z ∧ P x z) →
  ∃ zs, f <$> v = Some <$> zs ∧ Forall2 P v zs.
Proof.
  induction v as [|x v IH]; intros H.
  - by exists [].
  - destruct (H x) as (z & Hz & HP); [left|].
    destruct IH as (zs & Hzs & HF); [intros y Hy; apply H; by right|].
    exists (z :: zs). cbn. rewrite Hz, Hzs. split; [done|by constructor].
Qed.

Lemma Forall2_Forall_right {A B : Type} (P : A → B → Prop) (Q : B → Prop) l k :
  (∀ x y, P x y → Q y) → Forall2 P l k → Forall Q k.
Proof. intros HPQ. induction 1; constructor; eauto. Qed.

Lemma tenths (m k : nat) :
  (k * m = 10 * (k * m / 10) + (k * m) mod 10 ∧ (k * m) mod 10 < 10)%nat.
Proof. split; [apply Nat.div_mod_eq|]. by apply Nat.mod_upper_bound. Qed.

(** When [qcut] returns on a column with a row, every row has a decile. *)
Lemma qcut_labels v labels :
  v ≠ [] → qcut v 10 = Ok labels →
  ∃ zs, labels = Some <$> zs ∧ length zs = length v ∧ Forall (λ z, 0 ≤ z ≤ 9)%Z zs.
Proof.
  intros Hv. unfold qcut. case_decide; [done|]. intros [= <-].
  destruct (labels_exist (bin_label (qcut_bins v 10)) (λ _ z, (0 ≤ z ≤ 9)%Z) v)
    as (zs & Hzs & HF).
  { intros x Hx.
    destruct (bin_label_in_range v 10 x ltac:(done) Hx) as (z & Hz & Hr).
    exists z. split; [done|lia]. }
  exists zs. split; [done|]. split; [symmetry; by eapply Forall2_length|].
  eapply Forall2_Forall_right; [|exact HF]. done.
Qed.

Lemma labels_plus_one_present zs :
  labels_plus_one (Some <$> zs) = IntCol ((λ z, z + 1)%Z <$> zs).
Proof. unfold labels_plus_one. by rewrite all_present_some. Qed.

(** [qcut] returns exactly when the eleven edges are distinct. *)
Lemma length_unique_le l : (length (unique l) ≤ length l)%nat.
Proof.
  induction l as [|x l IH]; [done|]. cbn.
  pose proof (length_filter (λ y, negb (Qeq_bool y x)) (unique l)). lia.
Qed.

Lemma qcut_ok_unique v labels :
  qcut v 10 = Ok labels → length (unique (qcut_bins v 10)) = 11%nat.
Proof.
  unfold qcut. rewrite length_qcut_bins. case_decide as H; [done|]. intros _.
  pose proof (length_unique_le (qcut_bins v 10)) as Hle.
  rewrite length_qcut_bins in Hle. lia.
Qed.

Lemma qcut_raise v e :
  qcut v 10 = Raise e →
  e = ValueError "Bin edges must be unique" ∧
  (length (unique (qcut_bins v 10)) < 11)%nat.
Proof.
  unfold qcut. rewrite length_qcut_bins.
  case_decide as Hdup; [|done]. intros [= <-]. split; [done|exact (proj1 Hdup)].
Qed.

Lemma with_cfi_decile_absent tiny sqrtQ df xs ps rs cfi :
  cols df !! "CFI_decile" = None →
  cols (with_cfi (normalized tiny sqrtQ df xs ps rs) cfi) !! "CFI_decile" = None.
Proof.
  intros H. cbn [with_cfi cols normalized].
  do 8 (rewrite lookup_insert_ne by done). exact H.
Qed.

Lemma merged_decile_absent co2 poverty revenue latest_year :
  cols (merged co2 poverty revenue latest_year) !! "CFI_decile" = None.
Proof. reflexivity. Qed.

(** ** The marker map *)

Lemma add_markers_none df rows m :
  (∀ i, i ∈ rows → row_marker df i = Ok None) → add_markers df rows m = Ok m.
Proof.
  induction rows as [|i rows IH]; [done|]. intros H. cbn.
  rewrite (H i) by left. apply IH. intros j Hj. apply H. by right.
Qed.

Lemma row_marker_some df i mk :
  row_marker df i = Ok (Some mk) →
  notnull (row_get df i "latitude") = true ∧ notnull (row_get df i "longitude") = true.
Proof.
  unfold row_marker.
  destruct (notnull (row_get df i "latitude")),
    (notnull (row_get df i "longitude")); cbn; done.
Qed.

Lemma row_marker_located df i k ctry lbl :
  row_get df i "cluster" = Some (CInt k) →
  row_get df i "country" = Some ctry →
  row_get df i "cluster_label" = Some lbl →
  notnull (row_get df i "latitude") = true →
  notnull (row_get df i "longitude") = true →
  ∃ la lo, row_get df i "latitude" = Some la ∧ row_get df i "longitude" = Some lo ∧
    row_marker df i = Ok (Some (Marker (la, lo) (Z.to_nat (k mod 10)) (ctry, lbl))).
Proof.
  intros Hk Hc Hl Hla Hlo. unfold row_marker, row_item.
  rewrite Hla, Hlo, Hk, Hc, Hl. cbn.
  destruct (row_get df i "latitude") as [la|]; [|done].
  destruct (row_get df i "longitude") as [lo|]; [|done].
  by exists la, lo.
Qed.

Section Properties.

Variable tiny : Q.
Variable sqrtQ : Q → Q.
Variable KMeans_fit_predict : nat → Z → list (Q * Q * Q) → result (list Z).

Lemma normalize_assigns : assigns normalize_names (normalize tiny sqrtQ).
Proof. unfold normalize, normalize_names. frame. Qed.

Lemma compute_cfi_assigns : assigns cfi_names compute_cfi.
Proof. unfold compute_cfi, cfi_names. frame. Qed.

Lemma cluster_countries_assigns k :
  assigns cluster_names (cluster_countries KMeans_fit_predict k).
Proof. unfold cluster_countries, cluster_names. frame. Qed.

Lemma length_minmax_column l : length (minmax_column tiny l) = length l.
Proof. unfold minmax_column. by rewrite length_fmap. Qed.

Lemma length_standard_column l : length (standard_column tiny sqrtQ l) = length l.
Proof. unfold standard_column. by rewrite length_fmap. Qed.

(** ** Min-max scaling *)

Lemma handle_zeros_in_scale_pos s : 0 <= s → 0 < handle_zeros_in_scale tiny s.
Proof.
  intros Hs. unfold handle_zeros_in_scale.
  destruct (Qlt_b s tiny); cbn; [lra|].
  destruct (Qeq_bool s 0) eqn:E; [lra|].
  apply Qeq_bool_neq in E. lra.
Qed.

(** The range is kept as the scale unless it is zero or under [tiny]. *)
Lemma handle_zeros_in_scale_keep s :
  ¬ s < tiny → ¬ s == 0 → handle_zeros_in_scale tiny s = s.
Proof.
  intros Ht Hz. unfold handle_zeros_in_scale.
  destruct (Qlt_b s tiny) eqn:E1; [by apply Qlt_b_iff in E1|].
  destruct (Qeq_bool s 0) eqn:E2; [by apply Qeq_bool_iff in E2|done].
Qed.

Lemma col_range_nonneg l : 0 <= col_max l - col_min l.
Proof.
  destruct l as [|a l]; [cbn; lra|].
  assert (col_min (a :: l) ∈ a :: l) as Hin by by apply col_min_in.
  apply col_max_ge in Hin. lra.
Qed.

(** Row [i] of the scaled column, as a quotient. *)
Lemma minmax_column_lookup l i x :
  l !! i = Some x →
  ∃ y, minmax_column tiny l !! i = Some y ∧
       y == (x - col_min l) / handle_zeros_in_scale tiny (col_max l - col_min l).
Proof.
  intros Hx. unfold minmax_column. rewrite list_lookup_fmap, Hx. cbn.
  eexists; split; [reflexivity|].
  pose proof (handle_zeros_in_scale_pos _ (col_range_nonneg l)).
  field. lra.
Qed.

Lemma minmax_column_nonneg l i y : minmax_column tiny l !! i = Some y → 0 <= y.
Proof.
  intros Hy.
  assert (is_Some (l !! i)) as [x Hx].
  { apply lookup_lt_is_Some. rewrite <- length_minmax_column.
    by eapply lookup_lt_Some. }
  destruct (minmax_column_lookup _ _ _ Hx) as (y' & Hy' & Heq).
  assert (y' = y) as -> by congruence. rewrite Heq.
  pose proof (handle_zeros_in_scale_pos _ (col_range_nonneg l)).
  apply Qle_shift_div_l; [done|].
  assert (col_min l <= x) by (apply col_min_le; by eapply list_elem_of_lookup_2).
  lra.
Qed.

(** What the scaler does to row [i] of a column: never below 0, the
    minimum to 0; the maximum to 1 and nothing above 1 when the range is
    kept as the scale; everything to 0 when the column is constant. *)
Lemma minmax_column_spec l i x :
  l !! i = Some x →
  ∃ y, minmax_column tiny l !! i = Some y ∧ 0 <= y ∧
       (x == col_min l → y == 0) ∧
       (¬ col_max l - col_min l < tiny → ¬ col_max l - col_min l == 0 →
        y <= 1 ∧ (x == col_max l → y == 1)) ∧
       (col_max l == col_min l → y == 0).
Proof.
  intros Hx.
  destruct (minmax_column_lookup _ _ _ Hx) as (y & Hy & Heq).
  exists y. split; [done|]. split; [by eapply minmax_column_nonneg|].
  pose proof (handle_zeros_in_scale_pos _ (col_range_nonneg l)) as Hpos.
  assert (x ∈ l) as Hin by by eapply list_elem_of_lookup_2.
  pose proof (col_min_le _ _ Hin). pose proof (col_max_ge _ _ Hin).
  split_and!.
  - intros Hmin. rewrite Heq. unfold Qdiv.
    assert (x - col_min l == 0) as -> by lra. ring.
  - intros Ht Hz. rewrite (handle_zeros_in_scale_keep _ Ht Hz) in Heq, Hpos.
    split.
    + rewrite Heq. apply Qle_shift_div_r; [done|lra].
    + intros Hmax. rewrite Heq.
      assert (x - col_min l == col_max l - col_min l) as -> by lra.
      field. lra.
  - intros Hconst. rewrite Heq. unfold Qdiv.
    assert (x - col_min l == 0) as -> by lra. ring.
Qed.

Lemma normalize_ok df xs ps rs :
  cols df !! "co2_per_capita" = Some (float_col xs) →
  cols df !! "extreme_poverty_share" = Some (float_col ps) →
  cols df !! "revenue_gap_pct" = Some (float_col rs) →
  length xs = nrows df → length ps = nrows df → length rs = nrows df →
  nrows df ≠ 0%nat →
  normalize tiny sqrtQ df = (Ok (), normalized tiny sqrtQ df xs ps rs).
Proof.
  intros Hx Hp Hr Hlx Hlp Hlr Hn.
  unfold normalize, raw3, fit_transform, set3, mbind, M_bind, mret, M_ret.
  cbv beta.
  rewrite (get_floats_ok _ _ _ _ Hx), (get_floats_ok _ _ _ _ Hp),
    (get_floats_ok _ _ _ _ Hr).
  rewrite decide_False by done. cbn [fmap list_fmap].
  rewrite !setitem_ok
    by (rewrite col_len_float_col, length_minmax_column; cbn; congruence).
  rewrite (get_floats_ok _ "co2_per_capita" _ xs),
    (get_floats_ok _ "extreme_poverty_share" _ ps),
    (get_floats_ok _ "revenue_gap_pct" _ rs)
    by (cbn; by rewrite !lookup_insert_ne by done).
  cbn [nrows]. rewrite decide_False by done. cbn [fmap list_fmap].
  rewrite !setitem_ok
    by (rewrite col_len_float_col, length_standard_column; cbn; congruence).
  reflexivity.
Qed.

Lemma normalized_lookup df xs ps rs :
  cols (normalized tiny sqrtQ df xs ps rs) !! "co2_mm" = Some (float_col (minmax_column tiny xs)) ∧
  cols (normalized tiny sqrtQ df xs ps rs) !! "poverty_mm" = Some (float_col (minmax_column tiny ps)) ∧
  cols (normalized tiny sqrtQ df xs ps rs) !! "revenue_mm" = Some (float_col (minmax_column tiny rs)).
Proof.
  cbn. split_and!; by rewrite !lookup_insert_ne, lookup_insert_eq by done.
Qed.

Lemma minmax_column_Forall_nonneg l : Forall (λ z, 0 <= z) (minmax_column tiny l).
Proof.
  apply Forall_forall. intros y [i Hy]%list_elem_of_lookup_1.
  by eapply minmax_column_nonneg.
Qed.

(** The two stages on a merged frame with at least one row. *)
Lemma merged_stages co2 poverty revenue latest_year :
  nrows (merged co2 poverty revenue latest_year) ≠ 0%nat →
  ∃ xs ps rs,
    float_values (merged co2 poverty revenue latest_year) "co2_per_capita" = xs ∧
    float_values (merged co2 poverty revenue latest_year) "extreme_poverty_share" = ps ∧
    float_values (merged co2 poverty revenue latest_year) "revenue_gap_pct" = rs ∧
    length xs = nrows (merged co2 poverty revenue latest_year) ∧
    length ps = nrows (merged co2 poverty revenue latest_year) ∧
    length rs = nrows (merged co2 poverty revenue latest_year) ∧
    normalize tiny sqrtQ (merged co2 poverty revenue latest_year)
      = (Ok (), normalized tiny sqrtQ (merged co2 poverty revenue latest_year) xs ps rs) ∧
    compute_cfi (normalized tiny sqrtQ (merged co2 poverty revenue latest_year) xs ps rs)
      = match qcut (cfi_list (minmax_column tiny ps) (minmax_column tiny rs)
                             (minmax_column tiny xs)) 10 with
        | Ok labels =>
            (Ok (), with_decile
               (with_cfi (normalized tiny sqrtQ (merged co2 poverty revenue latest_year) xs ps rs)
                  (cfi_list (minmax_column tiny ps) (minmax_column tiny rs)
                            (minmax_column tiny xs))) labels)
        | Raise e =>
            (Raise e,
             with_cfi (normalized tiny sqrtQ (merged co2 poverty revenue latest_year) xs ps rs)
               (cfi_list (minmax_column tiny ps) (minmax_column tiny rs)
                         (minmax_column tiny xs)))
        end.
Proof.
  intros Hn. unfold merged in *.
  destruct (load_and_merge_frame co2 poverty revenue latest_year)
    as (xs & ps & rs & Hx & Hp & Hr & Hlx & Hlp & Hlr).
  exists xs, ps, rs.
  rewrite (float_values_float_col _ _ _ Hx), (float_values_float_col _ _ _ Hp),
    (float_values_float_col _ _ _ Hr).
  split_and!; try done.
  - by apply normalize_ok.
  - destruct (normalized_lookup (load_and_merge co2 poverty revenue latest_year).1
                xs ps rs) as (Hc & Hp' & Hr').
    apply compute_cfi_run; try done.
    + rewrite length_minmax_column. exact Hlp.
    + rewrite length_minmax_column. exact Hlr.
    + rewrite length_minmax_column. exact Hlx.
    + apply minmax_column_Forall_nonneg.
Qed.

(** The scores and ranks a merged frame with at least one row ends with,
    whether or not [qcut] returns. *)
Lemma merged_scores co2 poverty revenue latest_year :
  nrows (merged co2 poverty revenue latest_year) ≠ 0%nat →
  final (normalize tiny sqrtQ) (merged co2 poverty revenue latest_year)
    = normalized tiny sqrtQ (merged co2 poverty revenue latest_year)
        (float_values (merged co2 poverty revenue latest_year) "co2_per_capita")
        (float_values (merged co2 poverty revenue latest_year) "extreme_poverty_share")
        (float_values (merged co2 poverty revenue latest_year) "revenue_gap_pct") ∧
  outcome (normalize tiny sqrtQ) (merged co2 poverty revenue latest_year) = Ok () ∧
  cols (final compute_cfi
          (final (normalize tiny sqrtQ) (merged co2 poverty revenue latest_year)))
    !! "CFI"
    = Some (float_col (scores (minmax_column tiny)
                              (merged co2 poverty revenue latest_year))) ∧
  cols (final compute_cfi
          (final (normalize tiny sqrtQ) (merged co2 poverty revenue latest_year)))
    !! "CFI_rank"
    = Some (float_col (rank_desc (scores (minmax_column tiny)
                                         (merged co2 poverty revenue latest_year)))) ∧
  length (scores (minmax_column tiny) (merged co2 poverty revenue latest_year))
    = nrows (merged co2 poverty revenue latest_year).
Proof.
  intros Hn.
  destruct (merged_stages _ _ _ _ Hn)
    as (xs & ps & rs & <- & <- & <- & Hlx & Hlp & Hlr & Hnorm & Hcfi).
  unfold final, outcome. rewrite Hnorm. cbn [fst snd].
  split; [done|]. split; [done|].
  rewrite Hcfi. fold (scores (minmax_column tiny) (merged co2 poverty revenue latest_year)).
  split_and!.
  - destruct (qcut _ _); cbn [fst snd with_decile with_cfi cols];
      by rewrite ?lookup_insert_ne, lookup_insert_eq by done.
  - destruct (qcut _ _); cbn [fst snd with_decile with_cfi cols];
      by rewrite ?lookup_insert_ne, lookup_insert_eq by done.
  - apply length_cfi_list; by rewrite length_minmax_column.
Qed.

(** C1.  Row [i] of a merged frame: after [normalize] and [compute_cfi] its
    score is (poverty_mm * revenue_mm) / (co2_mm + 1e-6), the three factors
    being the min-max scaled poverty share, revenue gap and CO2 per capita
    of that row. *)
Theorem compute_cfi_formula co2 poverty revenue latest_year (i : nat) :
  (i < nrows (merged co2 poverty revenue latest_year))%nat →
  ∃ p r c,
    minmax_column tiny
      (float_values (merged co2 poverty revenue latest_year) "extreme_poverty_share")
      !! i = Some p ∧
    minmax_column tiny
      (float_values (merged co2 poverty revenue latest_year) "revenue_gap_pct")
      !! i = Some r ∧
    minmax_column tiny
      (float_values (merged co2 poverty revenue latest_year) "co2_per_capita")
      !! i = Some c ∧
    float_at (final (normalize tiny sqrtQ) (merged co2 poverty revenue latest_year))
      "poverty_mm" i = Some p ∧
    float_at (final (normalize tiny sqrtQ) (merged co2 poverty revenue latest_year))
      "revenue_mm" i = Some r ∧
    float_at (final (normalize tiny sqrtQ) (merged co2 poverty revenue latest_year))
      "co2_mm" i = Some c ∧
    float_at (final compute_cfi
                (final (normalize tiny sqrtQ) (merged co2 poverty revenue latest_year)))
      "CFI" i = Some ((p * r) / (c + 1 / 1000000)).
Proof.
  intros Hi.
  assert (nrows (merged co2 poverty revenue latest_year) ≠ 0%nat) as Hn by lia.
  destruct (merged_stages _ _ _ _ Hn)
    as (xs & ps & rs & Hxs & Hps & Hrs & Hlx & Hlp & Hlr & _ & _).
  destruct (merged_scores _ _ _ _ Hn) as (Hfin & _ & Hcfi & _ & _).
  rewrite Hxs, Hps, Hrs in *.
  destruct (lookup_lt_is_Some_2 (minmax_column tiny ps) i) as [p Hp];
    [rewrite length_minmax_column; lia|].
  destruct (lookup_lt_is_Some_2 (minmax_column tiny rs) i) as [r Hr];
    [rewrite length_minmax_column; lia|].
  destruct (lookup_lt_is_Some_2 (minmax_column tiny xs) i) as [c Hc];
    [rewrite length_minmax_column; lia|].
  exists p, r, c.
  destruct (normalized_lookup (merged co2 poverty revenue latest_year) xs ps rs)
    as (Hc' & Hp' & Hr').
  rewrite Hfin.
  rewrite (float_at_float_col _ _ _ _ Hp'), (float_at_float_col _ _ _ _ Hr'),
    (float_at_float_col _ _ _ _ Hc').
  rewrite <- Hfin, (float_at_float_col _ _ _ _ Hcfi).
  split_and!; try done.
  unfold scores. rewrite Hxs, Hps, Hrs.
  by apply cfi_list_lookup.
Qed.

(** A frame without rows makes the scaler raise before anything is
    assigned. *)
Lemma normalize_empty df xs ps rs :
  cols df !! "co2_per_capita" = Some (float_col xs) →
  cols df !! "extreme_poverty_share" = Some (float_col ps) →
  cols df !! "revenue_gap_pct" = Some (float_col rs) →
  nrows df = 0%nat →
  normalize tiny sqrtQ df = (Raise (ValueError "Found array with 0 sample(s)"), df).
Proof.
  intros Hx Hp Hr Hn.
  unfold normalize, raw3, fit_transform, mbind, M_bind, mret, M_ret.
  cbv beta.
  rewrite (get_floats_ok _ _ _ _ Hx), (get_floats_ok _ _ _ _ Hp),
    (get_floats_ok _ _ _ _ Hr).
  by rewrite decide_True.
Qed.

Lemma merged_empty co2 poverty revenue latest_year :
  nrows (merged co2 poverty revenue latest_year) = 0%nat →
  normalize tiny sqrtQ (merged co2 poverty revenue latest_year)
    = (Raise (ValueError "Found array with 0 sample(s)"),
       merged co2 poverty revenue latest_year) ∧
  compute_cfi (merged co2 poverty revenue latest_year)
    = (Raise (KeyError "poverty_mm"), merged co2 poverty revenue latest_year).
Proof.
  intros Hn. split.
  - destruct (load_and_merge_frame co2 poverty revenue latest_year)
      as (xs & ps & rs & Hx & Hp & Hr & _).
    by eapply normalize_empty.
  - reflexivity.
Qed.

(** C3.  On a merged frame every denominator co2_mm + 1e-6 of the index is
    positive, co2_mm being a min-max output and so not negative; no division
    of [compute_cfi] fails. *)
Theorem cfi_denominator_positive co2 poverty revenue latest_year :
  (∀ i : nat, (i < nrows (merged co2 poverty revenue latest_year))%nat →
     ∃ c, float_at (final (normalize tiny sqrtQ)
                      (merged co2 poverty revenue latest_year)) "co2_mm" i = Some c ∧
          0 <= c ∧ 0 < c + epsilon ∧
          ∀ a, float_div a (c + epsilon) = Some (a / (c + epsilon))) ∧
  outcome compute_cfi
    (final (normalize tiny sqrtQ) (merged co2 poverty revenue latest_year))
    ≠ Raise NonFinite.
Proof.
  split.
  - intros i Hi.
    assert (nrows (merged co2 poverty revenue latest_year) ≠ 0%nat) as Hn by lia.
    destruct (merged_scores _ _ _ _ Hn) as (Hfin & _).
    destruct (normalized_lookup (merged co2 poverty revenue latest_year)
                (float_values (merged co2 poverty revenue latest_year) "co2_per_capita")
                (float_values (merged co2 poverty revenue latest_year) "extreme_poverty_share")
                (float_values (merged co2 poverty revenue latest_year) "revenue_gap_pct"))
      as (Hc' & _).
    rewrite Hfin, (float_at_float_col _ _ _ _ Hc').
    destruct (merged_stages _ _ _ _ Hn)
      as (xs & ps & rs & -> & _ & _ & Hlx & _).
    destruct (lookup_lt_is_Some_2 (minmax_column tiny xs) i) as [c Hc];
      [rewrite length_minmax_column; lia|].
    exists c. pose proof (minmax_column_nonneg _ _ _ Hc). pose proof epsilon_pos.
    split_and!; [done|done|lra|].
    intros a. apply float_div_pos. lra.
  - destruct (decide (nrows (merged co2 poverty revenue latest_year) = 0%nat))
      as [Hz|Hn].
    + destruct (merged_empty _ _ _ _ Hz) as [Hnorm Hcfi].
      unfold final, outcome. rewrite Hnorm. cbn [snd]. by rewrite Hcfi.
    + destruct (merged_stages _ _ _ _ Hn)
        as (xs & ps & rs & _ & _ & _ & _ & _ & _ & Hnorm & Hcfi).
      unfold final, outcome. rewrite Hnorm. cbn [snd]. rewrite Hcfi.
      unfold qcut. case_decide; done.
Qed.

Lemma merged_float_at co2 poverty revenue latest_year raw mm i :
  (raw, mm) ∈ features →
  float_at (merged co2 poverty revenue latest_year) raw i
    = float_values (merged co2 poverty revenue latest_year) raw !! i ∧
  length (float_values (merged co2 poverty revenue latest_year) raw)
    = nrows (merged co2 poverty revenue latest_year) ∧
  (nrows (merged co2 poverty revenue latest_year) ≠ 0%nat →
   float_at (final (normalize tiny sqrtQ) (merged co2 poverty revenue latest_year)) mm i
   = minmax_column tiny (float_values (merged co2 poverty revenue latest_year) raw) !! i).
Proof.
  intros Hf.
  destruct (load_and_merge_frame co2 poverty revenue latest_year)
    as (xs & ps & rs & Hx & Hp & Hr & Hlx & Hlp & Hlr).
  fold (merged co2 poverty revenue latest_year) in *.
  assert (∀ l, cols (merged co2 poverty revenue latest_year) !! raw = Some (float_col l) →
            length l = nrows (merged co2 poverty revenue latest_year) →
            (nrows (merged co2 poverty revenue latest_year) ≠ 0%nat →
             cols (final (normalize tiny sqrtQ) (merged co2 poverty revenue latest_year))
               !! mm = Some (float_col (minmax_column tiny l))) →
            float_at (merged co2 poverty revenue latest_year) raw i
              = float_values (merged co2 poverty revenue latest_year) raw !! i ∧
            length (float_values (merged co2 poverty revenue latest_year) raw)
              = nrows (merged co2 poverty revenue latest_year) ∧
            (nrows (merged co2 poverty revenue latest_year) ≠ 0%nat →
             float_at (final (normalize tiny sqrtQ) (merged co2 poverty revenue latest_year)) mm i
             = minmax_column tiny (float_values (merged co2 poverty revenue latest_year) raw) !! i))
    as Hgen.
  { intros l Hl Hlen Hmm.
    rewrite (float_at_float_col _ _ _ _ Hl), (float_values_float_col _ _ _ Hl).
    split_and!; try done.
    intros Hn. by rewrite (float_at_float_col _ _ _ _ (Hmm Hn)). }
  assert (nrows (merged co2 poverty revenue latest_year) ≠ 0%nat →
          final (normalize tiny sqrtQ) (merged co2 poverty revenue latest_year)
          = normalized tiny sqrtQ (merged co2 poverty revenue latest_year) xs ps rs) as Hfin.
  { intros Hn. unfold final. by erewrite normalize_ok. }
  destruct (normalized_lookup (merged co2 poverty revenue latest_year) xs ps rs)
    as (Hc' & Hp' & Hr').
  unfold features in Hf.
  apply elem_of_cons in Hf as [[= -> ->] | Hf]; [|
    apply elem_of_cons in Hf as [[= -> ->] | Hf]; [|
      apply list_elem_of_singleton in Hf as [= -> ->]]].
  - apply (Hgen xs); [done..|]. intros Hn. by rewrite (Hfin Hn).
  - apply (Hgen ps); [done..|]. intros Hn. by rewrite (Hfin Hn).
  - apply (Hgen rs); [done..|]. intros Hn. by rewrite (Hfin Hn).
Qed.

(** C2, amended.  For each of the three indicators and every row of a merged
    frame, the min-max value is never negative and is 0 on a row holding the
    column's minimum; on a constant column every value, the maximum's too,
    is 0. *)
Theorem normalize_minmax_range co2 poverty revenue latest_year raw mm (i : nat) x :
  (raw, mm) ∈ features →
  float_at (merged co2 poverty revenue latest_year) raw i = Some x →
  ∃ y,
    float_at (final (normalize tiny sqrtQ) (merged co2 poverty revenue latest_year))
      mm i = Some y ∧
    0 <= y ∧
    (x == col_min (float_values (merged co2 poverty revenue latest_year) raw) → y == 0) ∧
    (col_max (float_values (merged co2 poverty revenue latest_year) raw)
       == col_min (float_values (merged co2 poverty revenue latest_year) raw) →
     y == 0).
Proof.
  intros Hf Hx.
  destruct (merged_float_at co2 poverty revenue latest_year raw mm i Hf)
    as (Hat & Hlen & Hmm).
  rewrite Hat in Hx.
  assert (nrows (merged co2 poverty revenue latest_year) ≠ 0%nat) as Hn.
  { apply lookup_lt_Some in Hx. lia. }
  rewrite (Hmm Hn).
  destruct (minmax_column_spec _ _ _ Hx) as (y & Hy & H0 & Hmin & _ & Hconst).
  exists y. by split_and!.
Qed.


Lemma annotate_assigns :
  assigns (normalize_names ++ cfi_names ++ cluster_names)
    (annotate tiny sqrtQ KMeans_fit_predict).
Proof.
  unfold annotate.
  apply assigns_bind; [|intros ?; apply assigns_bind; [|intros ?]].
  - eapply assigns_mono; [|apply normalize_assigns]. names.
  - eapply assigns_mono; [|apply compute_cfi_assigns]. names.
  - eapply assigns_mono; [|apply cluster_countries_assigns]. names.
Qed.

Lemma unchanged_but_Forall assigned kept df df' :
  unchanged_but assigned df df' →
  Forall (λ c, c ∉ assigned) kept →
  Forall (λ c, cols df' !! c = cols df !! c) kept.
Proof. intros [_ Hc] Hk. eapply Forall_impl; [exact Hk|]. intros c. apply Hc. Qed.

(** C9.  Each of [normalize], [compute_cfi] and [cluster_countries] keeps
    the number of rows and every column other than the ones it assigns, row
    by row and in the same order: the raw columns and the columns of the
    earlier stages in particular.  The assigned names are new to a merged
    frame. *)
Theorem stages_only_add_columns co2 poverty revenue latest_year
    (df : DataFrame) (n_clusters : nat) :
  Forall (λ c, cols (merged co2 poverty revenue latest_year) !! c = None)
    (normalize_names ++ cfi_names ++ cluster_names) ∧
  (unchanged_but normalize_names df (final (normalize tiny sqrtQ) df) ∧
   nrows (final (normalize tiny sqrtQ) df) = nrows df ∧
   Forall (λ c, cols (final (normalize tiny sqrtQ) df) !! c = cols df !! c)
     raw_names) ∧
  (unchanged_but cfi_names df (final compute_cfi df) ∧
   nrows (final compute_cfi df) = nrows df ∧
   Forall (λ c, cols (final compute_cfi df) !! c = cols df !! c)
     (raw_names ++ normalize_names)) ∧
  (unchanged_but cluster_names df
     (final (cluster_countries KMeans_fit_predict n_clusters) df) ∧
   nrows (final (cluster_countries KMeans_fit_predict n_clusters) df) = nrows df ∧
   Forall (λ c, cols (final (cluster_countries KMeans_fit_predict n_clusters) df) !! c
                = cols df !! c)
     (raw_names ++ normalize_names ++ cfi_names)).
Proof.
  split_and!.
  - by repeat constructor.
  - apply normalize_assigns.
  - apply normalize_assigns.
  - eapply unchanged_but_Forall; [apply normalize_assigns|].
    names.
  - apply compute_cfi_assigns.
  - apply compute_cfi_assigns.
  - eapply unchanged_but_Forall; [apply compute_cfi_assigns|].
    names.
  - apply cluster_countries_assigns.
  - apply cluster_countries_assigns.
  - eapply unchanged_but_Forall; [apply cluster_countries_assigns|].
    names.
Qed.

(** C8.  A row of an annotated frame gets a circle marker exactly when its
    latitude and longitude are both non-null.  The frame the three stages
    leave of a merged frame has neither column, so no row gets a marker and
    the saved map is empty. *)
Theorem marker_map_skips_every_country co2 poverty revenue latest_year
    (df : DataFrame) (i : nat) k ctry lbl :
  row_get df i "cluster" = Some (CInt k) →
  row_get df i "country" = Some ctry →
  row_get df i "cluster_label" = Some lbl →
  ((∃ mk, row_marker df i = Ok (Some mk)) ↔
   notnull (row_get df i "latitude") = true ∧
   notnull (row_get df i "longitude") = true) ∧
  cols (final (annotate tiny sqrtQ KMeans_fit_predict)
          (merged co2 poverty revenue latest_year)) !! "latitude" = None ∧
  cols (final (annotate tiny sqrtQ KMeans_fit_predict)
          (merged co2 poverty revenue latest_year)) !! "longitude" = None ∧
  (∀ j, row_marker (final (annotate tiny sqrtQ KMeans_fit_predict)
                      (merged co2 poverty revenue latest_year)) j = Ok None) ∧
  outcome marker_map (final (annotate tiny sqrtQ KMeans_fit_predict)
                        (merged co2 poverty revenue latest_year)) = Ok [].
Proof.
  intros Hk Hc Hl.
  split.
  { split.
    - intros [mk Hmk]. by eapply row_marker_some.
    - intros [Hla Hlo].
      destruct (row_marker_located _ _ _ _ _ Hk Hc Hl Hla Hlo)
        as (la & lo & _ & _ & Hmk).
      eauto. }
  destruct (annotate_assigns (merged co2 poverty revenue latest_year))
    as [_ Hcols].
  fold (final (annotate tiny sqrtQ KMeans_fit_predict)
          (merged co2 poverty revenue latest_year)) in Hcols.
  assert (cols (final (annotate tiny sqrtQ KMeans_fit_predict)
                  (merged co2 poverty revenue latest_year)) !! "latitude" = None)
    as Hlat.
  { rewrite Hcols; [done|names]. }
  assert (cols (final (annotate tiny sqrtQ KMeans_fit_predict)
                  (merged co2 poverty revenue latest_year)) !! "longitude" = None)
    as Hlon.
  { rewrite Hcols; [done|names]. }
  assert (∀ j, row_marker (final (annotate tiny sqrtQ KMeans_fit_predict)
                             (merged co2 poverty revenue latest_year)) j = Ok None)
    as Hrow.
  { intros j. unfold row_marker, row_get. by rewrite Hlat. }
  split_and!; try done.
  unfold outcome, marker_map. cbn [fst].
  apply add_markers_none. intros j _. apply Hrow.
Qed.


End Properties.

(** * The theorems on the sample tables *)

(** C1 on the first sample country. *)
Lemma compute_cfi_formula_witness :
  (0 < nrows sample)%nat ∧
  ∃ p r c,
    minmax_column 0 (float_values sample "extreme_poverty_share") !! 0%nat = Some p ∧
    minmax_column 0 (float_values sample "revenue_gap_pct") !! 0%nat = Some r ∧
    minmax_column 0 (float_values sample "co2_per_capita") !! 0%nat = Some c ∧
    float_at (final (normalize 0 isqrtQ) sample) "poverty_mm" 0 = Some p ∧
    float_at (final (normalize 0 isqrtQ) sample) "revenue_mm" 0 = Some r ∧
    float_at (final (normalize 0 isqrtQ) sample) "co2_mm" 0 = Some c ∧
    float_at (final compute_cfi (final (normalize 0 isqrtQ) sample)) "CFI" 0
      = Some ((p * r) / (c + 1 / 1000000)).
Proof.
  split; [vm_compute; lia|].
  apply (compute_cfi_formula 0 isqrtQ sample_co2 sample_poverty sample_revenue
           PyNone 0).
  vm_compute; lia.
Defined.

(** C2 on the emissions of the first sample country. *)
Lemma normalize_minmax_range_witness :
  ("co2_per_capita", "co2_mm") ∈ features ∧
  float_at sample "co2_per_capita" 0 = Some 1 ∧
  ∃ y,
    float_at (final (normalize 0 isqrtQ) sample) "co2_mm" 0 = Some y ∧
    0 <= y ∧
    (1 == col_min (float_values sample "co2_per_capita") → y == 0) ∧
    (col_max (float_values sample "co2_per_capita")
       == col_min (float_values sample "co2_per_capita") → y == 0).
Proof.
  split; [left|]. split; [vm_compute; reflexivity|].
  apply (normalize_minmax_range 0 isqrtQ sample_co2 sample_poverty sample_revenue
           PyNone "co2_per_capita" "co2_mm" 0 1).
  - left.
  - vm_compute; reflexivity.
Defined.

(** C3 on the first sample country. *)
Lemma cfi_denominator_positive_witness :
  (0 < nrows sample)%nat ∧
  (∃ c, float_at (final (normalize 0 isqrtQ) sample) "co2_mm" 0 = Some c ∧
        0 <= c ∧ 0 < c + epsilon ∧
        ∀ a, float_div a (c + epsilon) = Some (a / (c + epsilon))) ∧
  outcome compute_cfi (final (normalize 0 isqrtQ) sample) ≠ Raise NonFinite.
Proof.
  destruct (cfi_denominator_positive 0 isqrtQ sample_co2 sample_poverty
              sample_revenue PyNone) as [Hrow Hnever].
  split; [vm_compute; lia|]. split; [|exact Hnever].
  apply (Hrow 0%nat). vm_compute; lia.
Defined.



(** C6 on the sample tables: no country twice in 2020. *)
Lemma load_and_merge_one_record_per_country_witness :
  NoDup (named_countries sample_co2 (PyInt 2020)) ∧
  NoDup (named_countries sample_poverty (PyInt 2020)) ∧
  NoDup (named_countries sample_revenue (PyInt 2020)) ∧
  ∃ cs xs ps rs,
    cols sample !! "country" = Some (ObjCol (Some <$> cs)) ∧
    cols sample !! "co2_per_capita" = Some (FloatCol (Some <$> xs)) ∧
    cols sample !! "extreme_poverty_share" = Some (FloatCol (Some <$> ps)) ∧
    cols sample !! "revenue_gap_pct" = Some (FloatCol (Some <$> rs)) ∧
    length cs = nrows sample ∧ length xs = nrows sample ∧
    length ps = nrows sample ∧ length rs = nrows sample ∧
    NoDup cs.
Proof.
  assert (NoDup (named_countries sample_co2 (PyInt 2020))) as H1
    by (apply (bool_decide_unpack _); vm_compute; exact I).
  assert (NoDup (named_countries sample_poverty (PyInt 2020))) as H2
    by (apply (bool_decide_unpack _); vm_compute; exact I).
  assert (NoDup (named_countries sample_revenue (PyInt 2020))) as H3
    by (apply (bool_decide_unpack _); vm_compute; exact I).
  split; [exact H1|]. split; [exact H2|]. split; [exact H3|].
  destruct (load_and_merge_one_record_per_country sample_co2 sample_poverty
              sample_revenue PyNone)
    as (cs & xs & ps & rs & Hc & Hx & Hp & Hr & Hlc & Hlx & Hlp & Hlr & Hnd).
  exists cs, xs, ps, rs.
  split; [exact Hc|]. split; [exact Hx|]. split; [exact Hp|]. split; [exact Hr|].
  split; [exact Hlc|]. split; [exact Hlx|]. split; [exact Hlp|]. split; [exact Hlr|].
  exact (Hnd H1 H2 H3).
Defined.

(** C8 on the first row of the frame with coordinates. *)
Lemma marker_map_skips_every_country_witness :
  row_get located 0 "cluster" = Some (CInt 0) ∧
  row_get located 0 "country" = Some (CStr "A") ∧
  row_get located 0 "cluster_label" = Some (CStr "Justice Priorities") ∧
  ((∃ mk, row_marker located 0 = Ok (Some mk)) ↔
   notnull (row_get located 0 "latitude") = true ∧
   notnull (row_get located 0 "longitude") = true) ∧
  cols (final (annotate 0 isqrtQ round_robin) twelve) !! "latitude" = None ∧
  cols (final (annotate 0 isqrtQ round_robin) twelve) !! "longitude" = None ∧
  (∀ j, row_marker (final (annotate 0 isqrtQ round_robin) twelve) j = Ok None) ∧
  outcome marker_map (final (annotate 0 isqrtQ round_robin) twelve) = Ok [].
Proof.
  assert (row_get located 0 "cluster" = Some (CInt 0)) as H1
    by (vm_compute; reflexivity).
  assert (row_get located 0 "country" = Some (CStr "A")) as H2
    by (vm_compute; reflexivity).
  assert (row_get located 0 "cluster_label" = Some (CStr "Justice Priorities")) as H3
    by (vm_compute; reflexivity).
  split; [exact H1|]. split; [exact H2|]. split; [exact H3|].
  exact (marker_map_skips_every_country 0 isqrtQ round_robin
           twelve_co2 twelve_poverty twelve_revenue PyNone located 0 0
           (CStr "A") (CStr "Justice Priorities") H1 H2 H3).
Defined.


(** ** Where the claims as worded fail *)

(** C2 as worded.  Both countries hold the maximum of a constant emissions
    column, yet [normalize] maps it to 0, not to 1, under either threshold. *)
Lemma normalize_constant_column_not_one :
  float_at level "co2_per_capita" 0 = Some 5 ∧
  col_max (float_values level "co2_per_capita") = 5 ∧
  float_at (final (normalize 0 isqrtQ) level) "co2_mm" 0 = Some 0 ∧
  float_at (final (normalize ten_eps isqrtQ) level) "co2_mm" 0 = Some 0 ∧
  ¬ 0 == 1.
Proof. vm_compute. split_and!; try reflexivity. discriminate. Qed.

(** The exact formula sends the maximum of a column that is not constant
    to 1 and distinct values to distinct values.  The binary64 computation
    does neither: the maximum of [0.1; 1.2] goes above 1, that of [0; 1.9]
    stays below 1, and the distinct values 1.5 and 1.5000000000000002 of a
    column from 0 to 3 both go to 0.5.  The minimum goes to 0. *)
Lemma minmax_binary64_rounding :
  minmax_column_b64 [0x1.999999999999ap-4; 0x1.3333333333333p+0]%float
    = [0; 0x1.0000000000001p+0]%float ∧
  PrimFloat.ltb 1 0x1.0000000000001p+0 = true ∧
  minmax_column_b64 [0; 0x1.e666666666666p+0]%float
    = [0; 0x1.fffffffffffffp-1]%float ∧
  PrimFloat.ltb 0x1.fffffffffffffp-1 1 = true ∧
  PrimFloat.ltb 0x1.8p+0 0x1.8000000000001p+0 = true ∧
  minmax_column_b64 [0; 0x1.8p+0; 0x1.8000000000001p+0; 3]%float
    = [0; 0.5; 0.5; 1]%float.
Proof. vm_compute. by split_and!. Qed.



(** C6 as worded.  A CO2 file that lists a country twice for the year gives
    a merged frame with two records for it. *)
Lemma load_and_merge_duplicate_country :
  cols (load_and_merge twice_co2 once_poverty once_revenue PyNone).1 !! "country"
    = Some (ObjCol [Some "A"; Some "A"]) ∧
  ¬ NoDup [Some "A"; Some "A"].
Proof.
  split; [vm_compute; reflexivity|].
  intros H. apply NoDup_cons in H as [Hin _]. apply Hin. left.
Qed.

(** * Further properties of the stages *)

(** ** Loading and merging *)

Lemma elem_of_merge {A B : Type} (left : list (option string * A))
    (right : list (option string * B)) k a b :
  (k, (a, b)) ∈ merge left right ↔ (k, a) ∈ left ∧ (k, b) ∈ right.
Proof.
  unfold merge. rewrite list_elem_of_bind. split.
  - intros ([k' a'] & Hin & Hl).
    apply list_elem_of_fmap in Hin as ([k'' b'] & Heq & Hr).
    apply list_elem_of_filter in Hr as [Hk Hr]. cbn in *.
    injection Heq as -> -> ->. subst. done.
  - intros [Hl Hr]. exists (k, a). split; [|done].
    apply list_elem_of_fmap. exists (k, b). split; [done|].
    apply list_elem_of_filter. done.
Qed.

Lemma merge_nil_r {A B : Type} (left : list (option string * A)) :
  merge left (@nil (option string * B)) = [].
Proof. unfold merge. induction left as [|l left IH]; [done|]. cbn. exact IH. Qed.

Lemma frame_of_rows_cells rows i c x p r :
  (str_at (frame_of_rows rows) "country" i = Some c ∧
   float_at (frame_of_rows rows) "co2_per_capita" i = Some x ∧
   float_at (frame_of_rows rows) "extreme_poverty_share" i = Some p ∧
   float_at (frame_of_rows rows) "revenue_gap_pct" i = Some r)
  ↔ rows !! i = Some (MergedRow (Some c) (Some x) (Some p) (Some r)).
Proof.
  unfold str_at, float_at.
  destruct (frame_of_rows_lookup rows) as (-> & -> & -> & ->).
  rewrite !list_lookup_fmap.
  destruct (rows !! i) as [[oc ox op or]|]; cbn.
  - split.
    + by intros (-> & -> & -> & ->).
    + by intros [= -> -> -> ->].
  - split; [by intros [? _]|done].
Qed.

(** X1.  A record (country, co2, poverty, revenue) is a row of the merged
    frame exactly when the three tables, filtered to the selected year, hold
    that country with these three values. *)
Theorem load_and_merge_rows co2 poverty revenue latest_year c x p r :
  (∃ i, str_at (merged co2 poverty revenue latest_year) "country" i = Some c ∧
        float_at (merged co2 poverty revenue latest_year) "co2_per_capita" i
          = Some x ∧
        float_at (merged co2 poverty revenue latest_year) "extreme_poverty_share" i
          = Some p ∧
        float_at (merged co2 poverty revenue latest_year) "revenue_gap_pct" i
          = Some r)
  ↔ (Some c, Some x)
      ∈ select_year co2 (load_and_merge co2 poverty revenue latest_year).2 ∧
    (Some c, Some p)
      ∈ select_year poverty (load_and_merge co2 poverty revenue latest_year).2 ∧
    (Some c, Some r)
      ∈ select_year revenue (load_and_merge co2 poverty revenue latest_year).2.
Proof.
  unfold merged, load_and_merge. cbn [fst snd].
  set (year := py_or _ _).
  setoid_rewrite frame_of_rows_cells.
  rewrite <- list_elem_of_lookup. unfold dropna.
  rewrite list_elem_of_filter. unfold merged_rows. cbn zeta.
  rewrite list_elem_of_fmap. split.
  - intros (_ & [k [[a b] d]] & Heq & Hin). cbn in Heq.
    injection Heq as <- <- <- <-.
    apply elem_of_merge in Hin as [Hin Hr].
    apply elem_of_merge in Hin as [Hc Hp]. done.
  - intros (Hc & Hp & Hr). split; [done|].
    exists (Some c, ((Some x, Some p), Some r)). split; [done|].
    apply elem_of_merge. split; [|done]. by apply elem_of_merge.
Qed.


Lemma countries_in_year_nil t year :
  countries_in_year t year = [] → select_year t year = [].
Proof.
  unfold countries_in_year, select_year. intros H%fmap_nil_inv. by rewrite H.
Qed.

(** X3.  When one of the tables has no row for the selected year, the merged
    frame has no rows, and [normalize] raises on it without assigning a
    column. *)
Theorem load_and_merge_no_rows_for_year tiny sqrtQ co2 poverty revenue latest_year :
  countries_in_year co2 (load_and_merge co2 poverty revenue latest_year).2 = []
  ∨ countries_in_year poverty (load_and_merge co2 poverty revenue latest_year).2 = []
  ∨ countries_in_year revenue (load_and_merge co2 poverty revenue latest_year).2 = [] →
  nrows (merged co2 poverty revenue latest_year) = 0%nat ∧
  normalize tiny sqrtQ (merged co2 poverty revenue latest_year)
  = (Raise (ValueError "Found array with 0 sample(s)"),
     merged co2 poverty revenue latest_year).
Proof.
  intros H.
  assert (nrows (merged co2 poverty revenue latest_year) = 0%nat) as Hn.
  { unfold merged, load_and_merge in *. cbn [fst snd] in *.
    set (year := py_or _ _) in *. cbn [frame_of_rows nrows].
    unfold merged_rows. cbn zeta.
    destruct H as [H | [H | H]]; apply countries_in_year_nil in H; rewrite H.
    - done.
    - by rewrite merge_nil_r.
    - by rewrite merge_nil_r. }
  split; [done|]. by apply merged_empty.
Qed.

(** ** The shape of a merged frame *)

Lemma well_formed_frame_of_rows rows : well_formed (frame_of_rows rows).
Proof.
  intros name c. cbn. rewrite !lookup_insert.
  repeat case_decide; try (intros [= <-]; cbn; by rewrite length_fmap).
Qed.

(** ** [normalize] and [compute_cfi], run and run again *)

Lemma get_floats_run bad name df :
  get_floats bad name df = (read_floats bad df name, df).
Proof.
  unfold get_floats, read_floats, getitem, mbind, M_bind, lift.
  by destruct (cols df !! name).
Qed.

Lemma to_floats_length bad c l : to_floats bad c = Ok l → length l = col_len c.
Proof.
  destruct c as [l'|l'|l']; cbn; [done| |].
  - unfold all_present. destruct (mapM id l') as [v|] eqn:E; [|done].
    intros [= <-]. symmetry. by apply length_mapM in E.
  - intros [= <-]. by rewrite length_fmap.
Qed.

Lemma read_floats_length bad df name l :
  well_formed df → read_floats bad df name = Ok l → length l = nrows df.
Proof.
  intros Hwf. unfold read_floats.
  destruct (cols df !! name) as [c|] eqn:E; [|done].
  intros H%to_floats_length. rewrite H. by eapply Hwf.
Qed.

Lemma read_floats_unchanged assigned bad df df' name :
  unchanged_but assigned df df' → name ∉ assigned →
  read_floats bad df' name = read_floats bad df name.
Proof. intros [_ H] Hn. unfold read_floats. by rewrite H. Qed.

(** X5.  On a well-formed frame [normalize] is all or nothing: either it
    returns with the six scaled columns assigned, the three indicators being
    readable as numbers and the frame having a row, or it stops (an
    exception, or a NaN where the number model ends) and leaves the frame as
    it found it. *)
Theorem normalize_all_or_nothing tiny sqrtQ df :
  well_formed df →
  (∃ xs ps rs,
     read_floats (ValueError "could not convert string to float") df
       "co2_per_capita" = Ok xs ∧
     read_floats (ValueError "could not convert string to float") df
       "extreme_poverty_share" = Ok ps ∧
     read_floats (ValueError "could not convert string to float") df
       "revenue_gap_pct" = Ok rs ∧
     nrows df ≠ 0%nat ∧
     normalize tiny sqrtQ df = (Ok (), normalized tiny sqrtQ df xs ps rs))
  ∨ (∃ e, normalize tiny sqrtQ df = (Raise e, df)).
Proof.
  intros Hwf.
  unfold normalize, raw3, fit_transform, set3, mbind, M_bind, mret, M_ret.
  cbv beta. rewrite !get_floats_run.
  destruct (read_floats _ df "co2_per_capita") as [xs|e] eqn:Hx; [|by right; eexists].
  destruct (read_floats _ df "extreme_poverty_share") as [ps|e] eqn:Hp;
    [|by right; eexists].
  destruct (read_floats _ df "revenue_gap_pct") as [rs|e] eqn:Hr;
    [|by right; eexists].
  case_decide as Hn; [by right; eexists|].
  left. exists xs, ps, rs. split_and!; try done.
  pose proof (read_floats_length _ _ _ _ Hwf Hx) as Hlx.
  pose proof (read_floats_length _ _ _ _ Hwf Hp) as Hlp.
  pose proof (read_floats_length _ _ _ _ Hwf Hr) as Hlr.
  cbn [fmap list_fmap].
  rewrite !setitem_ok
    by (rewrite col_len_float_col, length_minmax_column; cbn; congruence).
  rewrite !get_floats_run.
  set (df' := {| nrows := _ |}).
  assert (unchanged_but normalize_names df df') as Hun.
  { split; [done|]. intros c Hc. cbn.
    rewrite !lookup_insert_ne; [done|..]; intros <-; apply Hc; names. }
  rewrite !(read_floats_unchanged normalize_names _ df df') by (done || names).
  rewrite Hx, Hp, Hr. cbn [nrows df']. rewrite decide_False by done.
  cbn [fmap list_fmap].
  rewrite !setitem_ok
    by (rewrite col_len_float_col, length_standard_column; cbn; congruence).
  reflexivity.
Qed.

Lemma with_cfi_again df cfi : with_cfi (with_cfi df cfi) cfi = with_cfi df cfi.
Proof.
  unfold with_cfi. cbn [nrows cols]. f_equal.
  apply map_eq. intros k. rewrite !lookup_insert. by repeat case_decide.
Qed.

Lemma with_decile_again df cfi labels :
  with_decile (with_cfi (with_decile (with_cfi df cfi) labels) cfi) labels
  = with_decile (with_cfi df cfi) labels.
Proof.
  unfold with_decile, with_cfi. cbn [nrows cols]. f_equal.
  apply map_eq. intros k. rewrite !lookup_insert. by repeat case_decide.
Qed.

(** X6.  Running [normalize] again on the frame it left, or [compute_cfi]
    again on the frame it left, gives the same outcome and the same frame:
    both recompute their columns from columns they do not assign. *)
Theorem stages_run_twice tiny sqrtQ co2 poverty revenue latest_year :
  normalize tiny sqrtQ
    (final (normalize tiny sqrtQ) (merged co2 poverty revenue latest_year))
  = normalize tiny sqrtQ (merged co2 poverty revenue latest_year) ∧
  compute_cfi
    (final compute_cfi
       (final (normalize tiny sqrtQ) (merged co2 poverty revenue latest_year)))
  = compute_cfi
      (final (normalize tiny sqrtQ) (merged co2 poverty revenue latest_year)).
Proof.
  destruct (decide (nrows (merged co2 poverty revenue latest_year) = 0%nat))
    as [Hz|Hn].
  { destruct (merged_empty tiny sqrtQ _ _ _ _ Hz) as [Hnorm Hcfi].
    unfold final. rewrite Hnorm. cbn [snd]. rewrite Hnorm, Hcfi. cbn [snd].
    by rewrite Hcfi. }
  destruct (load_and_merge_frame co2 poverty revenue latest_year)
    as (xs & ps & rs & Hx & Hp & Hr & Hlx & Hlp & Hlr).
  fold (merged co2 poverty revenue latest_year) in *.
  set (df0 := merged co2 poverty revenue latest_year) in *.
  pose proof (normalize_ok tiny sqrtQ df0 xs ps rs Hx Hp Hr Hlx Hlp Hlr Hn) as Hnorm.
  set (N := normalized tiny sqrtQ df0 xs ps rs) in *.
  destruct (normalized_lookup tiny sqrtQ df0 xs ps rs) as (Hc' & Hp' & Hr').
  fold N in Hc', Hp', Hr'.
  unfold final. rewrite Hnorm. cbn [snd]. split.
  - rewrite (normalize_ok tiny sqrtQ N xs ps rs); try done.
  - set (S := cfi_list (minmax_column tiny ps) (minmax_column tiny rs)
                (minmax_column tiny xs)).
    assert (length (minmax_column tiny ps) = nrows N) as Hl1
      by (rewrite length_minmax_column; exact Hlp).
    assert (length (minmax_column tiny rs) = nrows N) as Hl2
      by (rewrite length_minmax_column; exact Hlr).
    assert (length (minmax_column tiny xs) = nrows N) as Hl3
      by (rewrite length_minmax_column; exact Hlx).
    pose proof (compute_cfi_run N _ _ _ Hp' Hr' Hc' Hl1 Hl2 Hl3
                  (minmax_column_Forall_nonneg tiny xs)) as Hcfi.
    fold S in Hcfi. rewrite Hcfi.
    destruct (qcut S 10) as [labels|e] eqn:Hq; cbn [snd].
    + rewrite (compute_cfi_run (with_decile (with_cfi N S) labels)
                 (minmax_column tiny ps) (minmax_column tiny rs)
                 (minmax_column tiny xs));
        try done; try apply minmax_column_Forall_nonneg;
        try (cbn [with_decile with_cfi cols];
             by rewrite !lookup_insert_ne by done).
      fold S. rewrite Hq. by rewrite with_decile_again.
    + rewrite (compute_cfi_run (with_cfi N S)
                 (minmax_column tiny ps) (minmax_column tiny rs)
                 (minmax_column tiny xs));
        try done; try apply minmax_column_Forall_nonneg;
        try (cbn [with_cfi cols]; by rewrite !lookup_insert_ne by done).
      fold S. rewrite Hq. by rewrite with_cfi_again.
Qed.

(** ** Scaling does not invert the order *)

Lemma minmax_column_order tiny l i j x x' y y' :
  l !! i = Some x → l !! j = Some x' →
  minmax_column tiny l !! i = Some y → minmax_column tiny l !! j = Some y' →
  (x <= x' → y <= y') ∧ (x == x' → y == y').
Proof.
  intros Hx Hx' Hy Hy'.
  destruct (minmax_column_lookup tiny _ _ _ Hx) as (y1 & Hy1 & Heq).
  destruct (minmax_column_lookup tiny _ _ _ Hx') as (y2 & Hy2 & Heq').
  assert (y1 = y) as -> by congruence. assert (y2 = y') as -> by congruence.
  pose proof (handle_zeros_in_scale_pos tiny _ (col_range_nonneg l)) as Hpos.
  set (h := handle_zeros_in_scale tiny _) in *.
  assert (0 < / h) as Hinv by by apply Qinv_lt_0_compat.
  unfold Qdiv in Heq, Heq'. set (s := / h) in *.
  split.
  - intros ?. rewrite Heq, Heq'. nra.
  - intros E. rewrite Heq, Heq', E. reflexivity.
Qed.

(** X7.  Min-max scaling never inverts the order of two rows on an
    indicator: a row whose raw value is not above another's gets a scaled
    value not above the other's, and equal raw values get equal scaled
    values.  (Distinct raw values may round to one scaled value, see
    [minmax_binary64_rounding]; the order is not claimed to stay strict.) *)
Theorem normalize_keeps_order tiny sqrtQ co2 poverty revenue latest_year
    raw mm (i j : nat) x x' :
  (raw, mm) ∈ features →
  float_at (merged co2 poverty revenue latest_year) raw i = Some x →
  float_at (merged co2 poverty revenue latest_year) raw j = Some x' →
  ∃ y y',
    float_at (final (normalize tiny sqrtQ) (merged co2 poverty revenue latest_year))
      mm i = Some y ∧
    float_at (final (normalize tiny sqrtQ) (merged co2 poverty revenue latest_year))
      mm j = Some y' ∧
    (x <= x' → y <= y') ∧ (x == x' → y == y').
Proof.
  intros Hf Hx Hx'.
  destruct (merged_float_at tiny sqrtQ co2 poverty revenue latest_year raw mm i Hf)
    as (Hat & Hlen & Hmm).
  destruct (merged_float_at tiny sqrtQ co2 poverty revenue latest_year raw mm j Hf)
    as (Hat' & _ & Hmm').
  rewrite Hat in Hx. rewrite Hat' in Hx'.
  assert (nrows (merged co2 poverty revenue latest_year) ≠ 0%nat) as Hn.
  { apply lookup_lt_Some in Hx. lia. }
  rewrite (Hmm Hn), (Hmm' Hn).
  set (l := float_values _ raw) in *.
  destruct (lookup_lt_is_Some_2 (minmax_column tiny l) i) as [y Hy];
    [rewrite length_minmax_column; by eapply lookup_lt_Some|].
  destruct (lookup_lt_is_Some_2 (minmax_column tiny l) j) as [y' Hy'];
    [rewrite length_minmax_column; by eapply lookup_lt_Some|].
  exists y, y'. split; [done|]. split; [done|].
  by eapply minmax_column_order.
Qed.

Lemma of_nat_S (n : nat) : of_nat (S n) == of_nat n + 1.
Proof. unfold of_nat. rewrite Nat2Z.inj_succ, <- Z.add_1_r, inject_Z_plus. reflexivity. Qed.

(** X10.  No score is negative, and a row that holds the least poverty
    share, or the least revenue gap, of the frame scores 0 whatever its
    emissions. *)
Theorem cfi_nonnegative tiny sqrtQ co2 poverty revenue latest_year (i : nat) :
  (i < nrows (merged co2 poverty revenue latest_year))%nat →
  ∃ s,
    float_at (final compute_cfi
                (final (normalize tiny sqrtQ) (merged co2 poverty revenue latest_year)))
      "CFI" i = Some s ∧
    0 <= s ∧
    (∀ x, float_at (merged co2 poverty revenue latest_year) "extreme_poverty_share" i
            = Some x →
          x == col_min (float_values (merged co2 poverty revenue latest_year)
                          "extreme_poverty_share") → s == 0) ∧
    (∀ x, float_at (merged co2 poverty revenue latest_year) "revenue_gap_pct" i
            = Some x →
          x == col_min (float_values (merged co2 poverty revenue latest_year)
                          "revenue_gap_pct") → s == 0).
Proof.
  intros Hi.
  assert (nrows (merged co2 poverty revenue latest_year) ≠ 0%nat) as Hn by lia.
  destruct (merged_scores tiny sqrtQ _ _ _ _ Hn) as (_ & _ & Hcfi & _ & _).
  rewrite (float_at_float_col _ _ _ _ Hcfi). unfold scores.
  destruct (merged_float_at tiny sqrtQ co2 poverty revenue latest_year
              "extreme_poverty_share" "poverty_mm" i ltac:(names))
    as (Hatp & Hlp & _).
  destruct (merged_float_at tiny sqrtQ co2 poverty revenue latest_year
              "revenue_gap_pct" "revenue_mm" i ltac:(names))
    as (Hatr & Hlr & _).
  destruct (merged_float_at tiny sqrtQ co2 poverty revenue latest_year
              "co2_per_capita" "co2_mm" i ltac:(names))
    as (_ & Hlx & _).
  rewrite Hatp, Hatr.
  set (ps := float_values _ "extreme_poverty_share") in *.
  set (rs := float_values _ "revenue_gap_pct") in *.
  set (xs := float_values _ "co2_per_capita") in *.
  destruct (lookup_lt_is_Some_2 ps i) as [xp Hxp]; [lia|].
  destruct (lookup_lt_is_Some_2 rs i) as [xr Hxr]; [lia|].
  destruct (lookup_lt_is_Some_2 xs i) as [xc Hxc]; [lia|].
  destruct (minmax_column_spec tiny _ _ _ Hxp) as (p & Hp & Hp0 & Hpmin & _).
  destruct (minmax_column_spec tiny _ _ _ Hxr) as (r & Hr & Hr0 & Hrmin & _).
  destruct (minmax_column_spec tiny _ _ _ Hxc) as (c & Hc & Hc0 & _).
  exists ((p * r) / (c + epsilon)).
  split; [by apply cfi_list_lookup|].
  pose proof epsilon_pos.
  split_and!.
  - apply Qle_shift_div_l; [lra|]. ring_simplify. by apply Qmult_le_0_compat.
  - intros x Hx Hmin. assert (x = xp) as -> by congruence.
    rewrite (Hpmin Hmin). unfold Qdiv. ring.
  - intros x Hx Hmin. assert (x = xr) as -> by congruence.
    rewrite (Hrmin Hmin). unfold Qdiv. ring.
Qed.

(** ** Ranks and deciles follow the scores *)

Lemma count_disjoint f g l :
  (∀ x, f x = true → g x = false) → (count f l + count g l ≤ length l)%nat.
Proof.
  intros H. induction l as [|x l IH]; [done|].
  rewrite !count_cons. cbn [length]. specialize (H x).
  destruct (f x), (g x); first [lia | by specialize (H eq_refl)].
Qed.

Lemma count_single f l i v :
  l !! i = Some v → f v = true →
  (∀ j w, l !! j = Some w → j ≠ i → f w = false) → count f l = 1%nat.
Proof.
  revert i. induction l as [|a l IH]; intros i; [done|].
  rewrite count_cons. destruct i as [|i]; cbn.
  - intros [= ->] Hv Hrest. rewrite Hv, count_zero; [done|].
    intros w [j Hj]%list_elem_of_lookup_1. by apply (Hrest (S j)).
  - intros Hi Hv Hrest. rewrite (Hrest 0%nat a) by done.
    apply (IH i); [done..|]. intros j w Hj Hne. apply (Hrest (S j)); [done|lia].
Qed.

Lemma rank_desc_bounds l i r :
  rank_desc l !! i = Some r → 1 <= r ∧ r <= of_nat (length l).
Proof.
  intros Hr.
  assert (is_Some (l !! i)) as [v Hv].
  { apply lookup_lt_is_Some. rewrite <- length_rank_desc. by eapply lookup_lt_Some. }
  rewrite (rank_desc_lookup _ _ _ Hv) in Hr. injection Hr as <-.
  assert (0 < count (λ w, Qeq_bool w v) l)%nat as Hpos.
  { apply (count_pos _ l v); [by eapply list_elem_of_lookup_2|].
    apply Qeq_bool_iff. reflexivity. }
  pose proof (count_disjoint (λ w, Qlt_b v w) (λ w, Qeq_bool w v) l) as Hd.
  assert (count (λ w, Qlt_b v w) l + count (λ w, Qeq_bool w v) l ≤ length l)%nat
    as Hsum.
  { apply Hd. intros x Hx%Qlt_b_iff. apply not_true_is_false.
    intros Heq%Qeq_bool_iff. lra. }
  apply of_nat_le in Hsum. rewrite of_nat_add in Hsum.
  apply of_nat_lt in Hpos. change (of_nat 0) with 0 in Hpos.
  assert (1 <= of_nat (count (λ w, Qeq_bool w v) l)).
  { change 1 with (of_nat 1). apply of_nat_le.
    assert (0 < count (λ w, Qeq_bool w v) l)%nat; [|lia].
    apply (count_pos _ l v); [by eapply list_elem_of_lookup_2|].
    apply Qeq_bool_iff. reflexivity. }
  assert (0 <= of_nat (count (λ w, Qlt_b v w) l))
    by (change 0 with (of_nat 0); apply of_nat_le; lia).
  unfold Qdiv. change (/ 2) with (1 # 2). lra.
Qed.

Lemma rank_desc_top l i v r :
  l !! i = Some v → (∀ j w, l !! j = Some w → j ≠ i → w < v) →
  rank_desc l !! i = Some r → r == 1.
Proof.
  intros Hv Hbest Hr.
  rewrite (rank_desc_lookup _ _ _ Hv) in Hr. injection Hr as <-.
  rewrite (count_zero (λ w, Qlt_b v w)).
  2:{ intros w [j Hj]%list_elem_of_lookup_1. apply not_true_is_false.
      intros Hlt%Qlt_b_iff. destruct (decide (j = i)) as [->|Hne].
      - assert (w = v) as -> by congruence. lra.
      - specialize (Hbest j w Hj Hne). lra. }
  rewrite (count_single (λ w, Qeq_bool w v) l i v); [reflexivity|done|..].
  - apply Qeq_bool_iff. reflexivity.
  - intros j w Hj Hne. apply not_true_is_false. intros Heq%Qeq_bool_iff.
    specialize (Hbest j w Hj Hne). lra.
Qed.

(** Counting pairs: for every value of [l], the values of [m] related to it. *)
Lemma total_count_cons (g : Q → bool) (h : Q → nat) m :
  total ((λ w, (if g w then 1 else 0) + h w)%nat <$> m)
  = (count g m + total (h <$> m))%nat.
Proof.
  induction m as [|w m IH]; [done|].
  rewrite !fmap_cons, count_cons. unfold total in *. cbn [foldr].
  rewrite IH. lia.
Qed.

Lemma pairs_swap (f : Q → Q → bool) l m :
  total ((λ v, count (f v) m) <$> l)
  = total ((λ w, count (λ v, f v w) l) <$> m).
Proof.
  induction l as [|v l IH].
  - cbn. induction m as [|w m IHm]; [done|].
    rewrite fmap_cons. unfold total in *. cbn [foldr]. by rewrite <- IHm.
  - rewrite fmap_cons.
    rewrite (list_fmap_ext (λ w, count (λ v0, f v0 w) (v :: l))
               (λ w, (if f v w then 1 else 0) + count (λ v0, f v0 w) l)%nat m)
      by (intros ? w _; exact (count_cons (λ v0, f v0 w) v l)).
    rewrite total_count_cons, <- IH. done.
Qed.

Lemma count_trichotomy v m :
  (count (λ w, Qlt_b v w) m + count (λ w, Qlt_b w v) m
   + count (λ w, Qeq_bool w v) m = length m)%nat.
Proof.
  induction m as [|w m IH]; [done|]. rewrite !count_cons. cbn [length].
  destruct (Qlt_b v w) eqn:E1, (Qlt_b w v) eqn:E2, (Qeq_bool w v) eqn:E3;
    try lia; exfalso;
    repeat match goal with
           | H : Qlt_b _ _ = true |- _ => apply Qlt_b_iff in H
           | H : Qeq_bool _ _ = true |- _ => apply Qeq_bool_iff in H
           | H : Qlt_b _ _ = false |- _ =>
               apply not_true_iff_false in H; rewrite Qlt_b_iff in H
           | H : Qeq_bool _ _ = false |- _ => apply Qeq_bool_neq in H
           end; lra.
Qed.

Lemma pairs_total l :
  (2 * total ((λ v, count (λ w, Qlt_b v w) l) <$> l)
   + total ((λ v, count (λ w, Qeq_bool w v) l) <$> l)
   = length l * length l)%nat.
Proof.
  pose proof (pairs_swap (λ v w, Qlt_b v w) l l) as Hswap. cbn beta in Hswap.
  assert (∀ m,
    (total ((λ v, count (λ w, Qlt_b v w) l) <$> m)
     + total ((λ v, count (λ w, Qlt_b w v) l) <$> m)
     + total ((λ v, count (λ w, Qeq_bool w v) l) <$> m)
     = length m * length l)%nat) as Htot.
  { induction m as [|v m IH]; [done|].
    rewrite !fmap_cons. cbn [length]. unfold total in *. cbn [foldr].
    pose proof (count_trichotomy v l). lia. }
  specialize (Htot l). lia.
Qed.

Lemma of_nat_mul (a b : nat) : of_nat (a * b) == of_nat a * of_nat b.
Proof. unfold of_nat. by rewrite Nat2Z.inj_mul, inject_Z_mult. Qed.

Lemma Qsum_ranks (g h : Q → nat) l :
  Qsum ((λ v, of_nat (g v) + (of_nat (h v) + 1) / 2) <$> l)
  == of_nat (total (g <$> l))
     + (of_nat (total (h <$> l)) + of_nat (length l)) / 2.
Proof.
  induction l as [|v l IH].
  - cbn. unfold Qdiv. change (of_nat 0) with 0. ring.
  - rewrite fmap_cons. cbn [Qsum foldr length].
    fold (Qsum ((λ v, of_nat (g v) + (of_nat (h v) + 1) / 2) <$> l)).
    rewrite IH, of_nat_S.
    rewrite !fmap_cons.
    change (total (g v :: (g <$> l))) with (g v + total (g <$> l))%nat.
    change (total (h v :: (h <$> l))) with (h v + total (h <$> l))%nat.
    rewrite !of_nat_add. unfold Qdiv. ring.
Qed.

(** The ranks of a column add up to 1 + 2 + ... + n, ties or not. *)
Lemma rank_desc_sum l :
  Qsum (rank_desc l) == of_nat (length l) * (of_nat (length l) + 1) / 2.
Proof.
  unfold rank_desc. rewrite Qsum_ranks.
  pose proof (pairs_total l) as H.
  apply (f_equal of_nat) in H.
  assert (of_nat (2 * total ((λ v, count (λ w, Qlt_b v w) l) <$> l)
                  + total ((λ v, count (λ w, Qeq_bool w v) l) <$> l))
          == of_nat (length l * length l)) as HQ by (by rewrite H).
  rewrite of_nat_add, !of_nat_mul in HQ. change (of_nat 2) with 2 in HQ.
  set (A := of_nat (total _)) in *. set (E := of_nat (total _)) in *.
  set (n := of_nat (length l)) in *.
  clearbody A E n.
  unfold Qdiv. change (/ 2) with (1 # 2). nra.
Qed.

Lemma searchsorted_left_mono bins x y :
  x <= y → (searchsorted_left bins x ≤ searchsorted_left bins y)%nat.
Proof.
  intros Hxy. induction bins as [|b bins IH]; [done|]. cbn.
  destruct (Qlt_b b x) eqn:E; [|lia].
  apply Qlt_b_iff in E.
  assert (Qlt_b b y = true) as -> by (apply Qlt_b_iff; lra). lia.
Qed.

(** A value that is not below another is not in a lower bin. *)
Lemma bin_label_mono bins x y zx zy :
  x <= y → bin_label bins x = Some zx → bin_label bins y = Some zy → (zx ≤ zy)%Z.
Proof.
  intros Hxy. unfold bin_label.
  pose proof (searchsorted_left_mono bins x y Hxy) as Hmono.
  assert (Qeq_bool y (default 0 (head bins)) = true →
          searchsorted_left bins x = 0%nat) as Hzero.
  { intros Ey%Qeq_bool_iff. destruct bins as [|e0 bins]; [done|].
    cbn in *. destruct (Qlt_b e0 x) eqn:E; [|done].
    apply Qlt_b_iff in E. lra. }
  destruct (Qeq_bool x (default 0 (head bins))) eqn:Ex,
    (Qeq_bool y (default 0 (head bins))) eqn:Ey; cbv beta zeta iota;
    repeat case_decide; try done; intros Hzx Hzy;
    apply (inj Some) in Hzx; apply (inj Some) in Hzy; subst zx zy;
    try specialize (Hzero eq_refl); lia.
Qed.

Lemma bin_label_lowest v x :
  x ∈ v → (∀ y, y ∈ v → x <= y) → bin_label (qcut_bins v 10) x = Some 0%Z.
Proof.
  intros Hx Hlow.
  set (s := merge_sort Qle v).
  assert (StronglySorted Qle s) as Hs by apply (StronglySorted_merge_sort Qle).
  assert (x ∈ s) as Hxs by (unfold s; by rewrite merge_sort_Permutation).
  destruct (sorted_bounds s x Hs Hxs) as [Hlo _].
  assert (at_ s 0 ∈ v) as H0.
  { rewrite <- (merge_sort_Permutation Qle v). fold s.
    apply (list_elem_of_lookup_2 _ 0%nat), lookup_at.
    apply list_elem_of_lookup_1 in Hxs as [j Hj].
    apply lookup_lt_Some in Hj. lia. }
  specialize (Hlow _ H0).
  unfold bin_label.
  rewrite head_lookup, (qcut_bins_lookup v 10 0) by lia.
  rewrite length_qcut_bins. fold s. cbn [from_option]. unfold id.
  assert (Qeq_bool x (quantile s 0 10) = true) as ->.
  { apply Qeq_bool_iff. rewrite quantile_first. lra. }
  by rewrite decide_False by lia.
Qed.

Lemma unique_covers l y : y ∈ l → ∃ y', y' ∈ unique l ∧ y' == y.
Proof.
  induction l as [|x l IH]; [by intros ?%elem_of_nil|].
  intros [-> | Hy]%elem_of_cons.
  - exists x. split; [left|reflexivity].
  - destruct (IH Hy) as (y' & Hin & Heq). cbn.
    destruct (Qeq_bool y' x) eqn:E.
    + apply Qeq_bool_iff in E. exists x. split; [left|lra].
    + exists y'. split; [|done]. right. apply list_elem_of_filter.
      split; [|done]. by rewrite E.
Qed.

Lemma length_filter_full {A : Type} (P : A → Prop) `{∀ x, Decision (P x)} l :
  length (filter P l) = length l → Forall P l.
Proof.
  induction l as [|x l IH]; [done|].
  rewrite filter_cons. pose proof (length_filter P l).
  case_decide; cbn; intros Hlen; [|lia].
  constructor; [done|]. apply IH. lia.
Qed.

(** [unique] keeps every entry only of a list without two equal values. *)
Lemma unique_full_distinct l :
  length (unique l) = length l → pairwise_distinct l.
Proof.
  induction l as [|x l IH]; [by intros _ i j a b ?|].
  cbn. intros Hlen.
  pose proof (length_filter (λ y, negb (Qeq_bool y x)) (unique l)) as Hf.
  pose proof (length_unique_le l) as Hu.
  assert (length (unique l) = length l) as Hfull by lia.
  specialize (IH Hfull).
  assert (Forall (λ y, negb (Qeq_bool y x)) (unique l)) as Hne
    by (apply (length_filter_full (λ y, Is_true (negb (Qeq_bool y x)))); lia).
  assert (∀ k y, l !! k = Some y → ¬ y == x) as Hx.
  { intros k y Hy Heq.
    destruct (unique_covers l y) as (y' & Hin & Hy');
      [by eapply list_elem_of_lookup_2|].
    rewrite Forall_forall in Hne. specialize (Hne y' Hin).
    apply negb_prop_elim in Hne. apply Hne, Is_true_true, Qeq_bool_iff. lra. }
  intros [|i] [|j] a b; cbn.
  - done.
  - intros [= <-] Hb Heq. destruct (Hx j b Hb). by symmetry.
  - intros Ha [= <-] Heq. by destruct (Hx i a Ha).
  - intros Ha Hb Heq. f_equal. by eapply IH.
Qed.

Lemma tenth_fraction (r : nat) :
  (r < 10)%nat → 0 <= of_nat r / of_nat 10 ∧ of_nat r / of_nat 10 < 1.
Proof.
  intros Hr. assert (0 < of_nat 10) by reflexivity. split.
  - apply Qle_shift_div_l; [done|]. ring_simplify.
    change 0 with (of_nat 0). apply of_nat_le. lia.
  - apply Qlt_shift_div_r; [done|]. ring_simplify. by apply of_nat_lt.
Qed.

Lemma quantile_le_last s k :
  StronglySorted Qle s → s ≠ [] → (k ≤ 10)%nat →
  quantile s k 10 <= at_ s (length s - 1).
Proof.
  intros Hs Hne Hk.
  assert (0 < length s)%nat as Hlen by (destruct s; [done|cbn; lia]).
  unfold quantile.
  pose proof (tenths (length s - 1) k) as [Hdiv Hmod].
  set (lo := (k * (length s - 1) / 10)%nat) in *.
  assert (lo ≤ length s - 1)%nat as Hlo by nia.
  destruct (tenth_fraction _ Hmod) as [Ht0 Ht1].
  set (t := of_nat _ / of_nat 10) in *.
  fold (at_ s lo). fold (at_ s ((lo + 1) `min` (length s - 1))).
  assert (at_ s lo <= at_ s ((lo + 1) `min` (length s - 1)))
    by (apply sorted_at_le; [done|lia..]).
  assert (at_ s ((lo + 1) `min` (length s - 1)) <= at_ s (length s - 1))
    by (apply sorted_at_le; [done|lia..]).
  nra.
Qed.

Lemma searchsorted_left_exact bins x m bm :
  (∀ k b, (k < m)%nat → bins !! k = Some b → b < x) →
  bins !! m = Some bm → ¬ bm < x → searchsorted_left bins x = m.
Proof.
  revert bins. induction m as [|m IH]; intros [|b0 bins] Hbelow Hm Hstop;
    try done; cbn in *.
  - injection Hm as ->. destruct (Qlt_b bm x) eqn:E; [|done].
    by apply Qlt_b_iff in E.
  - assert (Qlt_b b0 x = true) as ->
      by (apply Qlt_b_iff, (Hbelow 0%nat); [lia|done]).
    f_equal. apply IH; [|done..].
    intros k b Hk Hb. apply (Hbelow (S k)); [lia|done].
Qed.

(** When the eleven edges differ, the highest value is in the last bin. *)
Lemma bin_label_highest v x :
  x ∈ v → (∀ y, y ∈ v → y <= x) →
  length (unique (qcut_bins v 10)) = 11%nat →
  bin_label (qcut_bins v 10) x = Some 9%Z.
Proof.
  intros Hx Hhigh Huniq.
  set (s := merge_sort Qle v).
  assert (StronglySorted Qle s) as Hs by apply (StronglySorted_merge_sort Qle).
  assert (x ∈ s) as Hxs by (unfold s; by rewrite merge_sort_Permutation).
  assert (s ≠ []) as Hne by (intros E; rewrite E in Hxs; by apply elem_of_nil in Hxs).
  destruct (sorted_bounds s x Hs Hxs) as [_ Hhi].
  assert (at_ s (length s - 1) ∈ v) as Hlast.
  { rewrite <- (merge_sort_Permutation Qle v). fold s.
    apply (list_elem_of_lookup_2 _ (length s - 1)%nat), lookup_at.
    destruct s; [done|cbn; lia]. }
  specialize (Hhigh _ Hlast).
  pose proof (unique_full_distinct (qcut_bins v 10)
                ltac:(by rewrite length_qcut_bins)) as Hdist.
  assert (∀ k, (k < 10)%nat → quantile s k 10 < x) as Hbelow.
  { intros k Hk.
    pose proof (quantile_le_last s k Hs Hne ltac:(lia)) as Hle.
    pose proof (quantile_last s 10 ltac:(done)) as Htop.
    destruct (Qlt_le_dec (quantile s k 10) x) as [|Hge]; [done|].
    assert (k = 10%nat); [|lia].
    apply (Hdist k 10%nat (quantile s k 10) (quantile s 10 10)).
    - apply qcut_bins_lookup. lia.
    - apply qcut_bins_lookup. lia.
    - rewrite Htop. lra. }
  assert (searchsorted_left (qcut_bins v 10) x = 10%nat) as Hssl.
  { apply (searchsorted_left_exact _ _ _ (quantile s 10 10)).
    - intros k b Hk Hb. rewrite qcut_bins_lookup in Hb by lia.
      injection Hb as <-. by apply Hbelow.
    - apply qcut_bins_lookup. lia.
    - rewrite quantile_last by done. lra. }
  unfold bin_label.
  rewrite head_lookup, (qcut_bins_lookup v 10 0) by lia.
  rewrite length_qcut_bins, Hssl. fold s. cbn [from_option]. unfold id.
  assert (Qeq_bool x (quantile s 0 10) = false) as ->.
  { apply not_true_is_false. intros E%Qeq_bool_iff.
    specialize (Hbelow 0%nat ltac:(lia)). lra. }
  by rewrite decide_False by lia.
Qed.

(** The frame [compute_cfi] leaves when it returns: the scores, and the
    decile of each from its bin. *)
Lemma merged_deciles tiny sqrtQ co2 poverty revenue latest_year :
  outcome compute_cfi
    (final (normalize tiny sqrtQ) (merged co2 poverty revenue latest_year)) = Ok () →
  ∃ zs,
    qcut (scores (minmax_column tiny) (merged co2 poverty revenue latest_year)) 10
      = Ok (Some <$> zs) ∧
    cols (final compute_cfi
            (final (normalize tiny sqrtQ) (merged co2 poverty revenue latest_year)))
      !! "CFI_decile" = Some (IntCol ((λ z, z + 1)%Z <$> zs)) ∧
    cols (final compute_cfi
            (final (normalize tiny sqrtQ) (merged co2 poverty revenue latest_year)))
      !! "CFI"
      = Some (float_col (scores (minmax_column tiny)
                                (merged co2 poverty revenue latest_year))).
Proof.
  intros Hok.
  destruct (decide (nrows (merged co2 poverty revenue latest_year) = 0%nat))
    as [Hz|Hn].
  { destruct (merged_empty tiny sqrtQ _ _ _ _ Hz) as [Hnorm Hcfi].
    unfold final, outcome in Hok. rewrite Hnorm in Hok. cbn [snd] in Hok.
    by rewrite Hcfi in Hok. }
  destruct (merged_scores tiny sqrtQ _ _ _ _ Hn) as (_ & _ & HCFI & _ & Hlen).
  destruct (merged_stages tiny sqrtQ _ _ _ _ Hn)
    as (xs & ps & rs & <- & <- & <- & Hlx & Hlp & Hlr & Hnorm & Hcfi).
  unfold final, outcome in *. rewrite Hnorm in *. cbn [snd] in *.
  rewrite Hcfi in *.
  fold (scores (minmax_column tiny) (merged co2 poverty revenue latest_year)) in *.
  destruct (qcut _ 10) as [labels|e] eqn:Hq; [|done].
  destruct (qcut_labels _ _ ltac:(by intros E; rewrite E in Hlen) Hq)
    as (zs & -> & Hlz & Hr).
  exists zs. split; [done|]. split; [|done].
  cbn [fst snd with_decile cols].
  by rewrite lookup_insert_eq, labels_plus_one_present.
Qed.

Lemma qcut_label_lookup v zs i x :
  qcut v 10 = Ok (Some <$> zs) → v !! i = Some x →
  ∃ z, zs !! i = Some z ∧ bin_label (qcut_bins v 10) x = Some z.
Proof.
  unfold qcut. case_decide; [done|]. intros [= Heq] Hx.
  apply (f_equal (λ l, l !! i)) in Heq.
  rewrite !list_lookup_fmap, Hx in Heq. cbn in Heq.
  destruct (zs !! i) as [z|]; [|done]. exists z. split; [done|].
  by injection Heq.
Qed.

Lemma int_at_IntCol df name l i :
  cols df !! name = Some (IntCol l) → int_at df name i = l !! i.
Proof. intros H. unfold int_at. by rewrite H. Qed.

(** X11.  When [compute_cfi] returns, the deciles follow the scores: a row
    whose score is not above another's is not in a higher decile. *)
Theorem cfi_decile_follows_score tiny sqrtQ co2 poverty revenue latest_year
    (i j : nat) si sj :
  outcome compute_cfi
    (final (normalize tiny sqrtQ) (merged co2 poverty revenue latest_year)) = Ok () →
  float_at (final compute_cfi
              (final (normalize tiny sqrtQ) (merged co2 poverty revenue latest_year)))
    "CFI" i = Some si →
  float_at (final compute_cfi
              (final (normalize tiny sqrtQ) (merged co2 poverty revenue latest_year)))
    "CFI" j = Some sj →
  si <= sj →
  ∃ di dj,
    int_at (final compute_cfi
              (final (normalize tiny sqrtQ) (merged co2 poverty revenue latest_year)))
      "CFI_decile" i = Some di ∧
    int_at (final compute_cfi
              (final (normalize tiny sqrtQ) (merged co2 poverty revenue latest_year)))
      "CFI_decile" j = Some dj ∧
    (di ≤ dj)%Z.
Proof.
  intros Hok Hi Hj Hle.
  destruct (merged_deciles _ _ _ _ _ _ Hok) as (zs & Hq & Hdec & HCFI).
  rewrite (float_at_float_col _ _ _ _ HCFI) in Hi.
  rewrite (float_at_float_col _ _ _ _ HCFI) in Hj.
  rewrite !(int_at_IntCol _ _ _ _ Hdec), !list_lookup_fmap.
  destruct (qcut_label_lookup _ _ _ _ Hq Hi) as (zi & -> & Hzi).
  destruct (qcut_label_lookup _ _ _ _ Hq Hj) as (zj & -> & Hzj).
  eexists _, _. split; [done|]. split; [done|].
  pose proof (bin_label_mono _ _ _ _ _ Hle Hzi Hzj). lia.
Qed.

(** X12.  When [compute_cfi] returns, a row with the lowest score is in
    decile 1 and a row with the highest score is in decile 10. *)
Theorem cfi_decile_extremes tiny sqrtQ co2 poverty revenue latest_year
    (i : nat) si :
  outcome compute_cfi
    (final (normalize tiny sqrtQ) (merged co2 poverty revenue latest_year)) = Ok () →
  float_at (final compute_cfi
              (final (normalize tiny sqrtQ) (merged co2 poverty revenue latest_year)))
    "CFI" i = Some si →
  ((∀ j sj,
      float_at (final compute_cfi
                  (final (normalize tiny sqrtQ)
                     (merged co2 poverty revenue latest_year))) "CFI" j = Some sj →
      si <= sj) →
   int_at (final compute_cfi
             (final (normalize tiny sqrtQ) (merged co2 poverty revenue latest_year)))
     "CFI_decile" i = Some 1%Z) ∧
  ((∀ j sj,
      float_at (final compute_cfi
                  (final (normalize tiny sqrtQ)
                     (merged co2 poverty revenue latest_year))) "CFI" j = Some sj →
      sj <= si) →
   int_at (final compute_cfi
             (final (normalize tiny sqrtQ) (merged co2 poverty revenue latest_year)))
     "CFI_decile" i = Some 10%Z).
Proof.
  intros Hok Hi.
  destruct (merged_deciles _ _ _ _ _ _ Hok) as (zs & Hq & Hdec & HCFI).
  rewrite (int_at_IntCol _ _ _ _ Hdec), list_lookup_fmap.
  setoid_rewrite (float_at_float_col _ _ _ _ HCFI).
  rewrite (float_at_float_col _ _ _ _ HCFI) in Hi.
  destruct (qcut_label_lookup _ _ _ _ Hq Hi) as (zi & -> & Hzi).
  pose proof (list_elem_of_lookup_2 _ _ _ Hi) as Hin.
  split; intros Hall.
  - rewrite bin_label_lowest in Hzi; [by injection Hzi as <-|done|].
    intros y [j Hj]%list_elem_of_lookup_1. by eapply Hall.
  - rewrite bin_label_highest in Hzi; [by injection Hzi as <-|done| |].
    + intros y [j Hj]%list_elem_of_lookup_1. by eapply Hall.
    + by eapply qcut_ok_unique.
Qed.

(** X13.  The ranks of a merged frame lie between 1 and the number of rows
    and add up to 1 + 2 + ... + n, whatever the ties. *)
Theorem cfi_rank_sum tiny sqrtQ co2 poverty revenue latest_year :
  Forall (λ r, 1 <= r ∧ r <= of_nat (nrows (merged co2 poverty revenue latest_year)))
    (float_values
       (final compute_cfi
          (final (normalize tiny sqrtQ) (merged co2 poverty revenue latest_year)))
       "CFI_rank") ∧
  Qsum (float_values
          (final compute_cfi
             (final (normalize tiny sqrtQ) (merged co2 poverty revenue latest_year)))
          "CFI_rank")
    == of_nat (nrows (merged co2 poverty revenue latest_year))
       * (of_nat (nrows (merged co2 poverty revenue latest_year)) + 1) / 2.
Proof.
  destruct (decide (nrows (merged co2 poverty revenue latest_year) = 0%nat))
    as [Hz|Hn].
  { destruct (merged_empty tiny sqrtQ _ _ _ _ Hz) as [Hnorm Hcfi].
    unfold final. rewrite Hnorm. cbn [snd]. rewrite Hcfi. cbn [snd].
    rewrite Hz. split; [by constructor|reflexivity]. }
  destruct (merged_scores tiny sqrtQ _ _ _ _ Hn) as (_ & _ & _ & Hrank & Hlen).
  rewrite (float_values_float_col _ _ _ Hrank), <- Hlen.
  split.
  - apply Forall_forall. intros r [k Hk]%list_elem_of_lookup_1.
    by eapply rank_desc_bounds.
  - apply rank_desc_sum.
Qed.

(** X14.  A row whose score is strictly above every other row's has rank 1. *)
Theorem cfi_rank_best tiny sqrtQ co2 poverty revenue latest_year (i : nat) si :
  float_at (final compute_cfi
              (final (normalize tiny sqrtQ) (merged co2 poverty revenue latest_year)))
    "CFI" i = Some si →
  (∀ j sj, j ≠ i →
     float_at (final compute_cfi
                 (final (normalize tiny sqrtQ)
                    (merged co2 poverty revenue latest_year))) "CFI" j = Some sj →
     sj < si) →
  ∃ r,
    float_at (final compute_cfi
                (final (normalize tiny sqrtQ) (merged co2 poverty revenue latest_year)))
      "CFI_rank" i = Some r ∧ r == 1.
Proof.
  intros Hi Hbest.
  destruct (decide (nrows (merged co2 poverty revenue latest_year) = 0%nat))
    as [Hz|Hn].
  { destruct (merged_empty tiny sqrtQ _ _ _ _ Hz) as [Hnorm Hcfi].
    unfold final in Hi. rewrite Hnorm in Hi. cbn [snd] in Hi.
    rewrite Hcfi in Hi. cbn [snd] in Hi. done. }
  destruct (merged_scores tiny sqrtQ _ _ _ _ Hn) as (_ & _ & HCFI & Hrank & Hlen).
  rewrite (float_at_float_col _ _ _ _ HCFI) in Hi.
  setoid_rewrite (float_at_float_col _ _ _ _ HCFI) in Hbest.
  rewrite (float_at_float_col _ _ _ _ Hrank).
  destruct (lookup_lt_is_Some_2 (rank_desc (scores (minmax_column tiny)
              (merged co2 poverty revenue latest_year))) i) as [r Hr].
  { rewrite length_rank_desc. by eapply lookup_lt_Some. }
  exists r. split; [done|].
  eapply rank_desc_top; [exact Hi| |exact Hr].
  intros j w Hj Hne. by eapply Hbest.
Qed.

(** X15.  When [compute_cfi] raises on a merged frame with a row, it is
    because two of the eleven bin edges coincide; the scores and the ranks
    are assigned all the same and no decile column is. *)
Theorem compute_cfi_raises_after_ranking tiny sqrtQ co2 poverty revenue latest_year :
  nrows (merged co2 poverty revenue latest_year) ≠ 0%nat →
  outcome compute_cfi
    (final (normalize tiny sqrtQ) (merged co2 poverty revenue latest_year)) ≠ Ok () →
  outcome compute_cfi
    (final (normalize tiny sqrtQ) (merged co2 poverty revenue latest_year))
    = Raise (ValueError "Bin edges must be unique") ∧
  (length (unique (qcut_bins
                     (scores (minmax_column tiny)
                        (merged co2 poverty revenue latest_year)) 10)) < 11)%nat ∧
  float_values
    (final compute_cfi
       (final (normalize tiny sqrtQ) (merged co2 poverty revenue latest_year))) "CFI"
    = scores (minmax_column tiny) (merged co2 poverty revenue latest_year) ∧
  float_values
    (final compute_cfi
       (final (normalize tiny sqrtQ) (merged co2 poverty revenue latest_year)))
    "CFI_rank"
    = rank_desc (scores (minmax_column tiny) (merged co2 poverty revenue latest_year)) ∧
  cols (final compute_cfi
          (final (normalize tiny sqrtQ) (merged co2 poverty revenue latest_year)))
    !! "CFI_decile" = None.
Proof.
  intros Hn Hraise.
  destruct (merged_scores tiny sqrtQ _ _ _ _ Hn) as (_ & _ & HCFI & Hrank & Hlen).
  rewrite (float_values_float_col _ _ _ HCFI), (float_values_float_col _ _ _ Hrank).
  clear HCFI Hrank Hlen.
  destruct (merged_stages tiny sqrtQ _ _ _ _ Hn)
    as (xs & ps & rs & <- & <- & <- & _ & _ & _ & Hnorm & Hcfi).
  fold (scores (minmax_column tiny) (merged co2 poverty revenue latest_year)) in Hcfi.
  unfold final, outcome in Hraise |- *.
  rewrite Hnorm in Hraise |- *. cbn [snd] in Hraise |- *.
  rewrite Hcfi in Hraise |- *. clear Hnorm Hcfi.
  destruct (qcut _ 10) as [labels|e] eqn:Hq; [done|]. cbn [fst snd].
  destruct (qcut_raise _ _ Hq) as [-> Hlt].
  split; [reflexivity|]. split; [exact Hlt|].
  split; [reflexivity|]. split; [reflexivity|].
  apply with_cfi_decile_absent, merged_decile_absent.
Qed.

(** ** Clustering *)

(** What [cluster_countries] does on any frame, step by step. *)
Lemma cluster_countries_run
    (KMeans_fit_predict : nat → Z → list (Q * Q * Q) → result (list Z))
    (n_clusters : nat) (df : DataFrame) :
  cluster_countries KMeans_fit_predict n_clusters df
  = match read_floats (ValueError "could not convert string to float") df "co2_z" with
    | Raise e => (Raise e, df)
    | Ok a =>
    match read_floats (ValueError "could not convert string to float") df
            "poverty_z" with
    | Raise e => (Raise e, df)
    | Ok b =>
    match read_floats (ValueError "could not convert string to float") df
            "revenue_z" with
    | Raise e => (Raise e, df)
    | Ok c =>
    match KMeans_fit_predict n_clusters 42%Z (zip3 a b c) with
    | Raise e => (Raise e, df)
    | Ok labels =>
        if decide (length labels = nrows df)
        then (Ok (),
              {| nrows := nrows df;
                 cols := <["cluster_label" := ObjCol (names <$> labels)]>
                         (<["cluster" := IntCol labels]> (cols df)) |})
        else (Raise (ValueError "Length of values does not match length of index"),
              df)
    end end end end.
Proof.
  unfold cluster_countries, mbind, M_bind. cbv beta.
  rewrite get_floats_run.
  destruct (read_floats _ df "co2_z") as [a|e]; [|done].
  rewrite get_floats_run.
  destruct (read_floats _ df "poverty_z") as [b|e]; [|done].
  rewrite get_floats_run.
  destruct (read_floats _ df "revenue_z") as [c|e]; [|done].
  unfold lift.
  destruct (KMeans_fit_predict n_clusters 42%Z (zip3 a b c)) as [labels|e]; [|done].
  case_decide as Hlen.
  - rewrite setitem_ok by done.
    unfold get_ints, getitem, mbind, M_bind. cbn [cols].
    rewrite lookup_insert_eq. unfold mret, M_ret.
    by rewrite setitem_ok by (cbn; by rewrite length_fmap).
  - unfold setitem at 1. cbn [col_len]. by rewrite decide_False.
Qed.

Lemma cluster_countries_cases
    (KMeans_fit_predict : nat → Z → list (Q * Q * Q) → result (list Z))
    (n_clusters : nat) (df : DataFrame) :
  (∃ labels,
     length labels = nrows df ∧
     cluster_countries KMeans_fit_predict n_clusters df
     = (Ok (),
        {| nrows := nrows df;
           cols := <["cluster_label" := ObjCol (names <$> labels)]>
                   (<["cluster" := IntCol labels]> (cols df)) |})) ∨
  (∃ e, cluster_countries KMeans_fit_predict n_clusters df = (Raise e, df)).
Proof.
  rewrite cluster_countries_run.
  destruct (read_floats _ df "co2_z") as [a|e]; [|right; by exists e].
  destruct (read_floats _ df "poverty_z") as [b|e]; [|right; by exists e].
  destruct (read_floats _ df "revenue_z") as [c|e]; [|right; by exists e].
  destruct (KMeans_fit_predict n_clusters 42%Z (zip3 a b c)) as [labels|e];
    [|right; by exists e].
  case_decide as Hlen; [left; by exists labels|right; by eexists].
Qed.

(** X16.  [cluster_countries] is all or nothing on every frame: either the
    three z-score columns can be read, k-means returns one label per row and
    both columns are assigned, or it raises and the frame is as it was. *)
Theorem cluster_countries_all_or_nothing
    (KMeans_fit_predict : nat → Z → list (Q * Q * Q) → result (list Z))
    (n_clusters : nat) (df : DataFrame) :
  (∃ a b c labels,
     read_floats (ValueError "could not convert string to float") df "co2_z" = Ok a ∧
     read_floats (ValueError "could not convert string to float") df "poverty_z" = Ok b ∧
     read_floats (ValueError "could not convert string to float") df "revenue_z" = Ok c ∧
     KMeans_fit_predict n_clusters 42%Z (zip3 a b c) = Ok labels ∧
     length labels = nrows df ∧
     cluster_countries KMeans_fit_predict n_clusters df
     = (Ok (),
        {| nrows := nrows df;
           cols := <["cluster_label" := ObjCol (names <$> labels)]>
                   (<["cluster" := IntCol labels]> (cols df)) |})) ∨
  (∃ e, cluster_countries KMeans_fit_predict n_clusters df = (Raise e, df)).
Proof.
  rewrite cluster_countries_run.
  destruct (read_floats _ df "co2_z") as [a|e]; [|right; by exists e].
  destruct (read_floats _ df "poverty_z") as [b|e]; [|right; by exists e].
  destruct (read_floats _ df "revenue_z") as [c|e]; [|right; by exists e].
  destruct (KMeans_fit_predict n_clusters 42%Z (zip3 a b c)) as [labels|e] eqn:Hk;
    [|right; by exists e].
  case_decide as Hlen; [|right; by eexists].
  left. by exists a, b, c, labels.
Qed.

Lemma names_None k : names k = None ↔ (k < 0 ∨ 3 < k)%Z.
Proof.
  destruct k as [|p|p]; cbn.
  - split; [done|lia].
  - destruct p as [[| |]|[| |]|]; cbn; split; (done || lia).
  - split; [lia|done].
Qed.

Lemma names_inj k k' s : names k = Some s → names k' = Some s → k = k'.
Proof.
  destruct k as [|[[| |]|[| |]|]|]; cbn; try done;
    intros [= <-]; destruct k' as [|[[| |]|[| |]|]|]; cbn; done.
Qed.

(** X17.  After [cluster_countries] the label of a row is the name of its
    cluster id: missing exactly for an id outside 0..3, the same for rows
    of one cluster and different for rows of two named clusters. *)
Theorem cluster_label_follows_id
    (KMeans_fit_predict : nat → Z → list (Q * Q * Q) → result (list Z))
    (n_clusters : nat) (df : DataFrame) (i j : nat) ki kj :
  outcome (cluster_countries KMeans_fit_predict n_clusters) df = Ok () →
  int_at (final (cluster_countries KMeans_fit_predict n_clusters) df) "cluster" i
    = Some ki →
  int_at (final (cluster_countries KMeans_fit_predict n_clusters) df) "cluster" j
    = Some kj →
  str_at (final (cluster_countries KMeans_fit_predict n_clusters) df)
    "cluster_label" i = names ki ∧
  (str_at (final (cluster_countries KMeans_fit_predict n_clusters) df)
     "cluster_label" i = None ↔ (ki < 0 ∨ 3 < ki)%Z) ∧
  (ki = kj →
   str_at (final (cluster_countries KMeans_fit_predict n_clusters) df)
     "cluster_label" i
   = str_at (final (cluster_countries KMeans_fit_predict n_clusters) df)
       "cluster_label" j) ∧
  ((0 ≤ ki ≤ 3)%Z →
   str_at (final (cluster_countries KMeans_fit_predict n_clusters) df)
     "cluster_label" i
   = str_at (final (cluster_countries KMeans_fit_predict n_clusters) df)
       "cluster_label" j →
   ki = kj).
Proof.
  intros Hok Hi Hj.
  assert (∀ r k,
    int_at (final (cluster_countries KMeans_fit_predict n_clusters) df) "cluster" r
      = Some k →
    str_at (final (cluster_countries KMeans_fit_predict n_clusters) df)
      "cluster_label" r = names k) as Hlabel.
  { destruct (cluster_countries_cases KMeans_fit_predict n_clusters df)
      as [(labels & _ & Hrun)|[e Hrun]];
      unfold outcome, final in *; rewrite Hrun in *; [|done].
    intros r k. unfold int_at, str_at. cbn [snd cols].
    rewrite lookup_insert_eq, lookup_insert_ne, lookup_insert_eq by done.
    intros Hr. by rewrite list_lookup_fmap, Hr. }
  rewrite (Hlabel _ _ Hi), (Hlabel _ _ Hj).
  split; [done|]. split; [apply names_None|]. split; [by intros ->|].
  intros Hrange Heq.
  destruct (names ki) as [s|] eqn:Hs.
  - by eapply names_inj.
  - apply names_None in Hs. lia.
Qed.

(** ** The marker map *)

Lemma row_marker_inv df i mk :
  row_marker df i = Ok (Some mk) →
  has_location df i = true ∧ (fill_color mk < 10)%nat ∧
  row_get df i "latitude" = Some (location mk).1 ∧
  row_get df i "longitude" = Some (location mk).2.
Proof.
  unfold row_marker, has_location.
  destruct (notnull (row_get df i "latitude") && notnull (row_get df i "longitude"));
    [|done].
  destruct (row_get df i "latitude") as [la|]; [|done].
  destruct (row_get df i "longitude") as [lo|]; [|done].
  destruct (row_item df i "cluster") as [[s|q|k|]|e]; try done.
  destruct (row_item df i "country") as [ctry|e]; [|done].
  destruct (row_item df i "cluster_label") as [lbl|e]; [|done].
  intros [= <-]. cbn. split_and!; try done.
  pose proof (Z.mod_pos_bound k 10 ltac:(lia)). lia.
Qed.

Lemma row_marker_none df i :
  row_marker df i = Ok None → has_location df i = false.
Proof.
  unfold row_marker, has_location.
  destruct (notnull (row_get df i "latitude")) eqn:Hla;
    destruct (notnull (row_get df i "longitude")) eqn:Hlo; cbn; try done.
  destruct (row_get df i "latitude") as [la|]; [|done].
  destruct (row_get df i "longitude") as [lo|]; [|done].
  destruct (row_item df i "cluster") as [[s|q|k|]|e]; try done.
  destruct (row_item df i "country") as [ctry|e]; [|done].
  by destruct (row_item df i "cluster_label") as [lbl|e].
Qed.

Lemma add_markers_inv df rows m ms :
  add_markers df rows m = Ok ms →
  ∃ added,
    ms = m ++ added ∧
    length added = length (filter (λ i, Is_true (has_location df i)) rows) ∧
    Forall (λ mk, ∃ i, i ∈ rows ∧ row_marker df i = Ok (Some mk)) added.
Proof.
  revert m. induction rows as [|i rows IH]; intros m; cbn [add_markers].
  - intros [= <-]. exists []. by rewrite app_nil_r.
  - destruct (row_marker df i) as [[mk|]|e] eqn:Hrow; [| |done].
    + intros (added & -> & Hlen & Hall)%IH.
      exists (mk :: added). rewrite <- app_assoc. split; [done|].
      apply row_marker_inv in Hrow as Hloc. destruct Hloc as [Hloc _].
      rewrite filter_cons_True by (by rewrite Hloc). cbn. split; [by rewrite Hlen|].
      constructor.
      * exists i. split; [left|done].
      * eapply Forall_impl; [exact Hall|]. intros mk' (i' & Hi' & Hmk').
        exists i'. split; [by right|done].
    + intros (added & -> & Hlen & Hall)%IH.
      exists added. split; [done|].
      apply row_marker_none in Hrow.
      rewrite filter_cons_False by (rewrite Hrow; intros []). split; [done|].
      eapply Forall_impl; [exact Hall|]. intros mk' (i' & Hi' & Hmk').
      exists i'. split; [by right|done].
Qed.

(** X18.  When the marker loop finishes, the map holds one marker for
    each row with both coordinates and no other; every marker's colour is
    one of the ten of the palette, whatever the sign of the cluster id, and
    its location is a pair of non-null cells of a row of the frame. *)
Theorem marker_map_markers (df : DataFrame) (ms : list marker) :
  outcome marker_map df = Ok ms →
  length ms = length (located_rows df) ∧
  (length ms ≤ nrows df)%nat ∧
  Forall (λ mk,
    (fill_color mk < 10)%nat ∧
    ∃ i, (i < nrows df)%nat ∧
         row_get df i "latitude" = Some (location mk).1 ∧
         row_get df i "longitude" = Some (location mk).2 ∧
         notnull (Some (location mk).1) = true ∧
         notnull (Some (location mk).2) = true) ms.
Proof.
  unfold outcome, marker_map, located_rows. cbn [fst].
  intros (added & -> & Hlen & Hall)%add_markers_inv. cbn [app].
  split; [done|]. split.
  { rewrite Hlen. etrans; [apply length_filter|]. by rewrite length_seq. }
  eapply Forall_impl; [exact Hall|].
  intros mk (i & Hi & Hrow). apply row_marker_inv in Hrow as (Hloc & Hcol & Hla & Hlo).
  split; [done|]. exists i.
  apply elem_of_seq in Hi. split; [lia|].
  unfold has_location in Hloc. rewrite Hla, Hlo in Hloc.
  apply andb_true_iff in Hloc as [? ?]. by split_and!.
Qed.

Lemma row_marker_unclustered df i :
  cols df !! "cluster" = None →
  row_marker df i
  = if has_location df i then Raise (KeyError "cluster") else Ok None.
Proof.
  intros Hc.
  assert (row_item df i "cluster" = Raise (KeyError "cluster")) as Hk.
  { unfold row_item, row_get. by rewrite Hc. }
  unfold row_marker, has_location. rewrite Hk.
  destruct (notnull (row_get df i "latitude")) eqn:Hla;
    destruct (notnull (row_get df i "longitude")) eqn:Hlo; cbn; try done.
  destruct (row_get df i "latitude") as [la|]; [|done].
  by destruct (row_get df i "longitude") as [lo|].
Qed.

Lemma add_markers_unclustered df rows m :
  cols df !! "cluster" = None →
  add_markers df rows m
  = if decide (Exists (λ i, Is_true (has_location df i)) rows)
    then Raise (KeyError "cluster") else Ok m.
Proof.
  intros Hc. induction rows as [|i rows IH]; cbn.
  - rewrite decide_False; [done|]. by intros ?%Exists_nil.
  - rewrite (row_marker_unclustered _ _ Hc).
    destruct (has_location df i) eqn:Hloc.
    + rewrite decide_True; [done|]. left. by rewrite Hloc.
    + rewrite IH. 
      destruct (decide (Exists _ rows)) as [He|He].
      * rewrite decide_True; [done|]. by right.
      * rewrite decide_False; [done|].
        intros [H|H]%Exists_cons; [by rewrite Hloc in H|done].
Qed.

(** X19.  On a frame that was not clustered the marker loop stops with
    [KeyError: 'cluster'] at the first row that has both coordinates; it
    finishes, with an empty map, only when no row has. *)
Theorem marker_map_unclustered (df : DataFrame) :
  cols df !! "cluster" = None →
  ((∃ i, (i < nrows df)%nat ∧ has_location df i = true) →
   outcome marker_map df = Raise (KeyError "cluster")) ∧
  ((∀ i, (i < nrows df)%nat → has_location df i = false) →
   outcome marker_map df = Ok []).
Proof.
  intros Hc. unfold outcome, marker_map. cbn [fst].
  rewrite (add_markers_unclustered _ _ _ Hc).
  split.
  - intros (i & Hi & Hloc). rewrite decide_True; [done|].
    apply Exists_exists. exists i. split; [|by rewrite Hloc].
    apply elem_of_seq. lia.
  - intros Hnone. rewrite decide_False; [done|].
    intros (i & Hi & Hloc)%Exists_exists. apply elem_of_seq in Hi.
    rewrite Hnone in Hloc by lia. done.
Qed.

(** ** The three stages in a row *)



(** * The further properties on the sample tables *)


(** X3 on the sample tables and 2021, a year the emissions table lacks. *)
Lemma load_and_merge_no_rows_for_year_witness :
  countries_in_year sample_co2
    (load_and_merge sample_co2 sample_poverty sample_revenue (PyInt 2021)).2 = [] ∧
  nrows (merged sample_co2 sample_poverty sample_revenue (PyInt 2021)) = 0%nat ∧
  normalize 0 isqrtQ (merged sample_co2 sample_poverty sample_revenue (PyInt 2021))
  = (Raise (ValueError "Found array with 0 sample(s)"),
     merged sample_co2 sample_poverty sample_revenue (PyInt 2021)).
Proof.
  assert (countries_in_year sample_co2
            (load_and_merge sample_co2 sample_poverty sample_revenue (PyInt 2021)).2
          = []) as H by (vm_compute; reflexivity).
  split; [exact H|].
  exact (load_and_merge_no_rows_for_year 0 isqrtQ sample_co2 sample_poverty
           sample_revenue (PyInt 2021) (or_introl H)).
Defined.

(** X5 on the sample frame. *)
Lemma normalize_all_or_nothing_witness :
  well_formed sample ∧
  ((∃ xs ps rs,
      read_floats (ValueError "could not convert string to float") sample
        "co2_per_capita" = Ok xs ∧
      read_floats (ValueError "could not convert string to float") sample
        "extreme_poverty_share" = Ok ps ∧
      read_floats (ValueError "could not convert string to float") sample
        "revenue_gap_pct" = Ok rs ∧
      nrows sample ≠ 0%nat ∧
      normalize 0 isqrtQ sample = (Ok (), normalized 0 isqrtQ sample xs ps rs))
   ∨ (∃ e, normalize 0 isqrtQ sample = (Raise e, sample))).
Proof.
  assert (well_formed sample) as Hwf by apply well_formed_frame_of_rows.
  split; [exact Hwf|].
  exact (normalize_all_or_nothing 0 isqrtQ sample Hwf).
Defined.

(** X7 on the emissions of the first two sample countries. *)
Lemma normalize_keeps_order_witness :
  ("co2_per_capita", "co2_mm") ∈ features ∧
  float_at sample "co2_per_capita" 0 = Some 1 ∧
  float_at sample "co2_per_capita" 1 = Some 5 ∧
  ∃ y y',
    float_at (final (normalize 0 isqrtQ) sample) "co2_mm" 0 = Some y ∧
    float_at (final (normalize 0 isqrtQ) sample) "co2_mm" 1 = Some y' ∧
    (1 <= 5 → y <= y') ∧ (1 == 5 → y == y').
Proof.
  assert (("co2_per_capita", "co2_mm") ∈ features) as Hf by left.
  assert (float_at sample "co2_per_capita" 0 = Some 1) as H0
    by (vm_compute; reflexivity).
  assert (float_at sample "co2_per_capita" 1 = Some 5) as H1
    by (vm_compute; reflexivity).
  split; [exact Hf|]. split; [exact H0|]. split; [exact H1|].
  exact (normalize_keeps_order 0 isqrtQ sample_co2 sample_poverty sample_revenue
           PyNone "co2_per_capita" "co2_mm" 0 1 1 5 Hf H0 H1).
Defined.

(** X10 on the third sample country, which has the least poverty share and
    the least revenue gap. *)
Lemma cfi_nonnegative_witness :
  (2 < nrows sample)%nat ∧
  ∃ s,
    float_at (scored sample) "CFI" 2 = Some s ∧
    0 <= s ∧
    (∀ x, float_at sample "extreme_poverty_share" 2 = Some x →
          x == col_min (float_values sample "extreme_poverty_share") → s == 0) ∧
    (∀ x, float_at sample "revenue_gap_pct" 2 = Some x →
          x == col_min (float_values sample "revenue_gap_pct") → s == 0).
Proof.
  assert (2 < nrows sample)%nat as Hi by (vm_compute; lia).
  split; [exact Hi|].
  exact (cfi_nonnegative 0 isqrtQ sample_co2 sample_poverty sample_revenue PyNone
           2 Hi).
Defined.

(** X11 on the last and the first sample country. *)
Lemma cfi_decile_follows_score_witness :
  outcome compute_cfi (final (normalize 0 isqrtQ) sample) = Ok () ∧
  float_at (scored sample) "CFI" 2 = Some (at_ (float_values (scored sample) "CFI") 2) ∧
  float_at (scored sample) "CFI" 0 = Some (at_ (float_values (scored sample) "CFI") 0) ∧
  at_ (float_values (scored sample) "CFI") 2
    <= at_ (float_values (scored sample) "CFI") 0 ∧
  ∃ di dj,
    int_at (scored sample) "CFI_decile" 2 = Some di ∧
    int_at (scored sample) "CFI_decile" 0 = Some dj ∧
    (di ≤ dj)%Z.
Proof.
  assert (outcome compute_cfi (final (normalize 0 isqrtQ) sample) = Ok ()) as Hok
    by (vm_compute; reflexivity).
  assert (float_at (scored sample) "CFI" 2
          = Some (at_ (float_values (scored sample) "CFI") 2)) as Hi
    by (vm_compute; reflexivity).
  assert (float_at (scored sample) "CFI" 0
          = Some (at_ (float_values (scored sample) "CFI") 0)) as Hj
    by (vm_compute; reflexivity).
  assert (at_ (float_values (scored sample) "CFI") 2
          <= at_ (float_values (scored sample) "CFI") 0) as Hle
    by (vm_compute; discriminate).
  split; [exact Hok|]. split; [exact Hi|]. split; [exact Hj|]. split; [exact Hle|].
  exact (cfi_decile_follows_score 0 isqrtQ sample_co2 sample_poverty sample_revenue
           PyNone 2 0 _ _ Hok Hi Hj Hle).
Defined.

(** X12 on the last sample country, whose score 0 is the lowest: it is in
    decile 1. *)
Lemma cfi_decile_extremes_witness :
  outcome compute_cfi (final (normalize 0 isqrtQ) sample) = Ok () ∧
  float_at (scored sample) "CFI" 2 = Some (at_ (float_values (scored sample) "CFI") 2) ∧
  int_at (scored sample) "CFI_decile" 2 = Some 1%Z.
Proof.
  assert (outcome compute_cfi (final (normalize 0 isqrtQ) sample) = Ok ()) as Hok
    by (vm_compute; reflexivity).
  assert (float_at (scored sample) "CFI" 2
          = Some (at_ (float_values (scored sample) "CFI") 2)) as Hi
    by (vm_compute; reflexivity).
  split; [exact Hok|]. split; [exact Hi|].
  apply (cfi_decile_extremes 0 isqrtQ sample_co2 sample_poverty sample_revenue
           PyNone 2 _ Hok Hi).
  intros [|[|[|j]]] sj H; vm_compute in H;
    first [discriminate H|injection H as <-; vm_compute; discriminate].
Defined.

(** X14 on the first sample country, whose score is above the two others. *)
Lemma cfi_rank_best_witness :
  float_at (scored sample) "CFI" 0 = Some (at_ (float_values (scored sample) "CFI") 0) ∧
  (∀ j sj, j ≠ 0%nat → float_at (scored sample) "CFI" j = Some sj →
           sj < at_ (float_values (scored sample) "CFI") 0) ∧
  ∃ r, float_at (scored sample) "CFI_rank" 0 = Some r ∧ r == 1.
Proof.
  assert (float_at (scored sample) "CFI" 0
          = Some (at_ (float_values (scored sample) "CFI") 0)) as Hi
    by (vm_compute; reflexivity).
  assert (∀ j sj, j ≠ 0%nat → float_at (scored sample) "CFI" j = Some sj →
                  sj < at_ (float_values (scored sample) "CFI") 0) as Hbest.
  { intros [|[|[|j]]] sj Hne H; [by destruct Hne|..]; vm_compute in H;
      first [discriminate H|injection H as <-; vm_compute; reflexivity]. }
  split; [exact Hi|]. split; [exact Hbest|].
  exact (cfi_rank_best 0 isqrtQ sample_co2 sample_poverty sample_revenue PyNone
           0 _ Hi Hbest).
Defined.

(** X15 on the two countries that both score 0. *)
Lemma compute_cfi_raises_after_ranking_witness :
  nrows pair ≠ 0%nat ∧
  outcome compute_cfi (final (normalize 0 isqrtQ) pair) ≠ Ok () ∧
  outcome compute_cfi (final (normalize 0 isqrtQ) pair)
    = Raise (ValueError "Bin edges must be unique") ∧
  (length (unique (qcut_bins (scores (minmax_column 0) pair) 10)) < 11)%nat ∧
  float_values (scored pair) "CFI" = scores (minmax_column 0) pair ∧
  float_values (scored pair) "CFI_rank" = rank_desc (scores (minmax_column 0) pair) ∧
  cols (scored pair) !! "CFI_decile" = None.
Proof.
  assert (nrows pair ≠ 0%nat) as Hn by (vm_compute; discriminate).
  assert (outcome compute_cfi (final (normalize 0 isqrtQ) pair) ≠ Ok ()) as Hr
    by (vm_compute; discriminate).
  split; [exact Hn|]. split; [exact Hr|].
  exact (compute_cfi_raises_after_ranking 0 isqrtQ pair_co2 pair_poverty pair_revenue
           PyNone Hn Hr).
Defined.

(** X17 on the first two of the twelve countries, dealt clusters 0 and 1. *)
Lemma cluster_label_follows_id_witness :
  outcome (cluster_countries round_robin 4) (scored twelve) = Ok () ∧
  int_at (final (cluster_countries round_robin 4) (scored twelve)) "cluster" 0
    = Some 0%Z ∧
  int_at (final (cluster_countries round_robin 4) (scored twelve)) "cluster" 1
    = Some 1%Z ∧
  str_at (final (cluster_countries round_robin 4) (scored twelve)) "cluster_label" 0
    = names 0 ∧
  (str_at (final (cluster_countries round_robin 4) (scored twelve)) "cluster_label" 0
     = None ↔ (0 < 0 ∨ 3 < 0)%Z) ∧
  (0%Z = 1%Z →
   str_at (final (cluster_countries round_robin 4) (scored twelve)) "cluster_label" 0
   = str_at (final (cluster_countries round_robin 4) (scored twelve))
       "cluster_label" 1) ∧
  ((0 ≤ 0 ≤ 3)%Z →
   str_at (final (cluster_countries round_robin 4) (scored twelve)) "cluster_label" 0
   = str_at (final (cluster_countries round_robin 4) (scored twelve))
       "cluster_label" 1 →
   0%Z = 1%Z).
Proof.
  assert (outcome (cluster_countries round_robin 4) (scored twelve) = Ok ()) as Hok
    by (vm_compute; reflexivity).
  assert (int_at (final (cluster_countries round_robin 4) (scored twelve))
            "cluster" 0 = Some 0%Z) as Hi by (vm_compute; reflexivity).
  assert (int_at (final (cluster_countries round_robin 4) (scored twelve))
            "cluster" 1 = Some 1%Z) as Hj by (vm_compute; reflexivity).
  split; [exact Hok|]. split; [exact Hi|]. split; [exact Hj|].
  exact (cluster_label_follows_id round_robin 4 (scored twelve) 0 1 0 1 Hok Hi Hj).
Defined.

(** X18 on the twelve countries with coordinates, eleven of them with
    both. *)
Lemma marker_map_markers_witness :
  outcome marker_map located = Ok located_markers ∧
  length located_markers = length (located_rows located) ∧
  (length located_markers ≤ nrows located)%nat ∧
  Forall (λ mk,
    (fill_color mk < 10)%nat ∧
    ∃ i, (i < nrows located)%nat ∧
         row_get located i "latitude" = Some (location mk).1 ∧
         row_get located i "longitude" = Some (location mk).2 ∧
         notnull (Some (location mk).1) = true ∧
         notnull (Some (location mk).2) = true) located_markers.
Proof.
  assert (outcome marker_map located = Ok located_markers) as H
    by (vm_compute; reflexivity).
  split; [exact H|].
  exact (marker_map_markers located located_markers H).
Defined.

(** X19 on the sample countries with coordinates and no clustering. *)
Lemma marker_map_unclustered_witness :
  cols unclustered !! "cluster" = None ∧
  ((∃ i, (i < nrows unclustered)%nat ∧ has_location unclustered i = true) →
   outcome marker_map unclustered = Raise (KeyError "cluster")) ∧
  ((∀ i, (i < nrows unclustered)%nat → has_location unclustered i = false) →
   outcome marker_map unclustered = Ok []).
Proof.
  assert (cols unclustered !! "cluster" = None) as H by (vm_compute; reflexivity).
  split; [exact H|].
  exact (marker_map_unclustered unclustered H).
Defined.


